(** Shallow embedding of the Go package github.com/ash3in/uuidv8
    (uuidv8.go and helper.go) and proofs of its specified properties.

    Data as in the Go code:
    - a Go [byte], [uint16] or [uint64] is a [Z]; conversions to [byte]
      are written out as [byte_of] (the low 8 bits);
    - a [[]byte] slice is a [list Z];
    - a Go [string] is a [String.string] (a sequence of 8-bit characters);
    - a [(T, error)] pair is a [result T]. *)

From Stdlib Require Import ZArith List String Ascii Bool Btauto Lia.
Import ListNotations.
Open Scope string_scope.
Open Scope list_scope.
Open Scope Z_scope.

(* ------------------------------------------------------------------ *)
(** * Go runtime pieces *)

(** The errors the package returns, one constructor per error site. *)
Inductive error :=
| ErrNodeLength (got : nat)        (* "node must be 6 bytes, got %d bytes" *)
| ErrTimestampBits (bits : Z)      (* "unsupported timestamp bit size: %d" *)
| ErrUUIDFormat                    (* "invalid UUID format" *)
| ErrUUIDLength                    (* "invalid UUID length" *)
| ErrHexInvalidByte (c : ascii)    (* encoding/hex: InvalidByteError *)
| ErrHexLength                     (* encoding/hex: ErrLength *)
| ErrIndexOutOfRange               (* run-time panic on a slice index *)
| ErrParse (e : error)             (* "failed to parse UUID: %w" *)
| ErrInvalidObject                 (* "object is not a valid UUIDv8" *)
| ErrInvalidString.                (* "string representation is not a valid UUIDv8" *)

Inductive result (A : Type) : Type :=
| Ok (a : A)
| Err (e : error).
Arguments Ok {A} a.
Arguments Err {A} e.

(** Go's conversion [byte(x)] of an unsigned integer. *)
Definition byte_of (x : Z) : Z := Z.land x 255.

(** A value of Go type [byte]. *)
Definition is_byte (x : Z) : Prop := 0 <= x < 256.

(** [l[i] = v] on a slice; every index written below is in range
    (Go would panic otherwise). *)
Fixpoint set_nth (l : list Z) (i : nat) (v : Z) : list Z :=
  match l, i with
  | [], _ => []
  | _ :: t, O => v :: t
  | h :: t, S i' => h :: set_nth t i' v
  end.

(** A Go tuple assignment [l[i], l[i+1], ... = v0, v1, ...]. *)
Fixpoint set_from (l : list Z) (i : nat) (vs : list Z) : list Z :=
  match vs with
  | [] => l
  | v :: vs' => set_from (set_nth l i v) (S i) vs'
  end.

(** Go's builtin [copy(dst, src)]: copies [min(len dst, len src)] elements. *)
Fixpoint go_copy (dst src : list Z) : list Z :=
  match dst, src with
  | d :: dt, s :: st => s :: go_copy dt st
  | _, [] => dst
  | [], _ => []
  end.

(** [copy(l[i:], src)]. *)
Definition copy_at (l : list Z) (i : nat) (src : list Z) : list Z :=
  firstn i l ++ go_copy (skipn i l) src.

(** The slice expression [l[i:j]] (in range at every use below). *)
Definition slice (l : list Z) (i j : nat) : list Z :=
  firstn (j - i) (skipn i l).

(** [s[i]] on a Go string; [None] is the out-of-range panic. *)
Definition char_at (s : string) (i : nat) : option ascii := String.get i s.

(* ------------------------------------------------------------------ *)
(** * encoding/hex and fmt's [%x] on byte slices *)

(** The digit table used by [fmt] and [encoding/hex] for lower-case output. *)
Definition ldigits : string := "0123456789abcdef".

Definition hex_digit (d : Z) : ascii :=
  match String.get (Z.to_nat d) ldigits with
  | Some c => c
  | None => "0"%char
  end.

(** [fmt]'s [%x] applied to a byte slice: two digits per byte,
    [digits[c>>4], digits[c&0xF]]. *)
Fixpoint hex_of_bytes (l : list Z) : string :=
  match l with
  | [] => EmptyString
  | b :: t => String (hex_digit (Z.shiftr b 4)) (String (hex_digit (Z.land b 15)) (hex_of_bytes t))
  end.

(** The width of [%08x] etc.: left padding with '0' up to the width. *)
Fixpoint zeros (n : nat) : string :=
  match n with
  | O => EmptyString
  | S n' => String "0" (zeros n')
  end.

Definition fmt_pad (width : nat) (s : string) : string :=
  if Nat.ltb (String.length s) width then (zeros (width - String.length s) ++ s)%string else s.

Definition fmt_x (width : nat) (l : list Z) : string := fmt_pad width (hex_of_bytes l).

(** [fromHexChar] of encoding/hex: both cases of a-f are accepted. *)
Definition fromHexChar (c : ascii) : option Z :=
  let n := Z.of_nat (nat_of_ascii c) in
  if (48 <=? n) && (n <=? 57) then Some (n - 48)
  else if (97 <=? n) && (n <=? 102) then Some (n - 97 + 10)
  else if (65 <=? n) && (n <=? 70) then Some (n - 65 + 10)
  else None.

(** [hex.Decode]: pairs of digits, [(a << 4) | b] per byte; an invalid
    character is reported before an odd length. *)
Fixpoint hex_decode (s : string) : result (list Z) :=
  match s with
  | EmptyString => Ok []
  | String p EmptyString =>
      match fromHexChar p with
      | None => Err (ErrHexInvalidByte p)
      | Some _ => Err ErrHexLength
      end
  | String p (String q rest) =>
      match fromHexChar p with
      | None => Err (ErrHexInvalidByte p)
      | Some a =>
          match fromHexChar q with
          | None => Err (ErrHexInvalidByte q)
          | Some b =>
              match hex_decode rest with
              | Ok r => Ok (Z.lor (byte_of (Z.shiftl a 4)) b :: r)
              | Err e => Err e
              end
          end
      end
  end.

(** [hex.DecodeString]. *)
Definition hex_DecodeString (s : string) : result (list Z) := hex_decode s.

(* ------------------------------------------------------------------ *)
(** * helper.go *)

Definition TimestampBits32 : Z := 32.
Definition TimestampBits48 : Z := 48.
Definition TimestampBits60 : Z := 60.
Definition variantRFC4122 : Z := 2.
Definition versionV8 : Z := 8.

(** [encodeTimestamp(uuid, timestamp, timestampBits)]: the slice is
    mutated in place in Go; here the updated slice is returned. *)
Definition encodeTimestamp (uuid : list Z) (timestamp timestampBits : Z) : result (list Z) :=
  if timestampBits =? TimestampBits32 then
    Ok (set_from uuid 0
          [byte_of (Z.shiftr timestamp 24); byte_of (Z.shiftr timestamp 16);
           byte_of (Z.shiftr timestamp 8); byte_of timestamp; 0; 0])
  else if timestampBits =? TimestampBits48 then
    Ok (set_from uuid 0
          [byte_of (Z.shiftr timestamp 40); byte_of (Z.shiftr timestamp 32);
           byte_of (Z.shiftr timestamp 24); byte_of (Z.shiftr timestamp 16);
           byte_of (Z.shiftr timestamp 8); byte_of timestamp])
  else if timestampBits =? TimestampBits60 then
    Ok (set_from uuid 0
          [byte_of (Z.shiftr timestamp 52); byte_of (Z.shiftr timestamp 44);
           byte_of (Z.shiftr timestamp 36); byte_of (Z.shiftr timestamp 28);
           byte_of (Z.shiftr timestamp 20); byte_of (Z.shiftr timestamp 12);
           byte_of (Z.shiftr timestamp 4)])
  else Err (ErrTimestampBits timestampBits).

(** [decodeTimestamp(uuidBytes)]. *)
Definition decodeTimestamp (b : list Z) : Z :=
  Z.lor (Z.lor (Z.lor (Z.lor (Z.lor
    (Z.shiftl (nth 0 b 0) 40) (Z.shiftl (nth 1 b 0) 32)) (Z.shiftl (nth 2 b 0) 24))
    (Z.shiftl (nth 3 b 0) 16)) (Z.shiftl (nth 4 b 0) 8)) (nth 5 b 0).

(** The dash-removal loop of [parseUUID]: the non-dash characters are
    copied into a zero-filled 32-byte buffer; writing past its end panics. *)
Fixpoint drop_dashes (s : string) : string :=
  match s with
  | EmptyString => EmptyString
  | String c s' => if Ascii.eqb c "-" then drop_dashes s' else String c (drop_dashes s')
  end.

Fixpoint nuls (n : nat) : string :=
  match n with
  | O => EmptyString
  | S n' => String zero (nuls n')
  end.

Definition strip_dashes (s : string) : result string :=
  let kept := drop_dashes s in
  if Nat.leb (String.length kept) 32 then Ok (kept ++ nuls (32 - String.length kept))%string
  else Err ErrIndexOutOfRange.

Definition is_dash (o : option ascii) : bool :=
  match o with Some c => Ascii.eqb c "-" | None => false end.

(** [parseUUID(uuid)]. *)
Definition parseUUID (uuid : string) : result (list Z) :=
  if Nat.eqb (String.length uuid) 32 then hex_DecodeString uuid
  else if Nat.eqb (String.length uuid) 36 then
    if negb (is_dash (char_at uuid 8)) || negb (is_dash (char_at uuid 13))
       || negb (is_dash (char_at uuid 18)) || negb (is_dash (char_at uuid 23))
    then Err ErrUUIDFormat
    else match strip_dashes uuid with
         | Ok r => hex_DecodeString r
         | Err e => Err e
         end
  else Err ErrUUIDLength.

(** [isAllZeroUUID(uuidBytes)]. *)
Definition isAllZeroUUID (b : list Z) : bool := forallb (fun x => x =? 0) b.

(** [formatUUID(uuid)]: [fmt.Sprintf("%08x-%04x-%04x-%04x-%012x", ...)]. *)
Definition formatUUID (uuid : list Z) : string :=
  (fmt_x 8 (slice uuid 0 4) ++ "-" ++ fmt_x 4 (slice uuid 4 6) ++ "-" ++
  fmt_x 4 (slice uuid 6 8) ++ "-" ++ fmt_x 4 (slice uuid 8 10) ++ "-" ++
  fmt_x 12 (slice uuid 10 16))%string.

(* ------------------------------------------------------------------ *)
(** * uuidv8.go *)

Record UUIDv8 := mkUUIDv8 {
  Timestamp : Z;   (* uint64 *)
  ClockSeq : Z;    (* uint16 *)
  Node : list Z    (* []byte *)
}.

(** The byte buffer [NewWithParams] builds (uuidv8.go, lines 87-102),
    before it is formatted. *)
Definition encodeUUID (timestamp clockSeq : Z) (node : list Z) (timestampBits : Z)
  : result (list Z) :=
  if negb (Nat.eqb (List.length node) 6) then Err (ErrNodeLength (List.length node)) else
  let uuid := repeat 0 16 in
  match encodeTimestamp uuid timestamp timestampBits with
  | Err e => Err e
  | Ok uuid =>
      (* Set version and clock sequence *)
      let uuid := set_nth uuid 6 (Z.lor (byte_of (Z.shiftl (byte_of versionV8) 4))
                                        (byte_of (Z.shiftr clockSeq 8))) in
      let uuid := set_nth uuid 7 (byte_of clockSeq) in
      (* Set variant *)
      let uuid := set_nth uuid 7 (Z.lor (Z.land (nth 7 uuid 0) 63)
                                        (byte_of (Z.shiftl variantRFC4122 6))) in
      (* Copy node *)
      Ok (copy_at uuid 8 node)
  end.

(** [NewWithParams(timestamp, clockSeq, node, timestampBits)]. *)
Definition NewWithParams (timestamp clockSeq : Z) (node : list Z) (timestampBits : Z)
  : result string :=
  match encodeUUID timestamp clockSeq node timestampBits with
  | Ok uuid => Ok (formatUUID uuid)
  | Err e => Err e
  end.

(** [FromString(uuid)]. *)
Definition FromString (uuid : string) : result UUIDv8 :=
  match parseUUID uuid with
  | Err e => Err (ErrParse e)
  | Ok b =>
      let timestamp :=
        Z.lor (Z.lor (Z.lor (Z.lor (Z.lor
          (Z.shiftl (nth 0 b 0) 40) (Z.shiftl (nth 1 b 0) 32)) (Z.shiftl (nth 2 b 0) 24))
          (Z.shiftl (nth 3 b 0) 16)) (Z.shiftl (nth 4 b 0) 8)) (nth 5 b 0) in
      let clockSeq := Z.lor (Z.shiftl (Z.land (nth 6 b 0) 15) 8) (nth 7 b 0) in
      let node := slice b 8 14 in
      Ok (mkUUIDv8 timestamp clockSeq node)
  end.

(** [FromStringOrNil(uuid)]; [None] is the nil pointer. *)
Definition FromStringOrNil (uuid : string) : option UUIDv8 :=
  match parseUUID uuid with
  | Err _ => None
  | Ok b =>
      if isAllZeroUUID b then None else
      let timestamp := decodeTimestamp (slice b 0 6) in
      let clockSeq := Z.lor (Z.shiftl (Z.land (nth 6 b 0) 15) 8) (nth 7 b 0) in
      let node := slice b 8 14 in
      Some (mkUUIDv8 timestamp clockSeq node)
  end.

(** [IsValidUUIDv8(uuid)]. *)
Definition IsValidUUIDv8 (uuid : string) : bool :=
  match parseUUID uuid with
  | Err _ => false
  | Ok b =>
      if isAllZeroUUID b then false else
      let version := Z.shiftr (nth 6 b 0) 4 in
      let variant := Z.land (Z.shiftr (nth 7 b 0) 6) 3 in
      (version =? versionV8) && (variant =? variantRFC4122)
  end.

(** [ToString(uuidv8)]. *)
Definition ToString (u : UUIDv8) : string :=
  match encodeTimestamp (repeat 0 16) (Timestamp u) TimestampBits48 with
  | Err _ => ""
  | Ok uuid =>
      let uuid := set_nth uuid 6 (Z.lor (byte_of (Z.shiftl (byte_of versionV8) 4))
                                        (byte_of (Z.shiftr (ClockSeq u) 8))) in
      let uuid := set_nth uuid 7 (byte_of (ClockSeq u)) in
      let uuid := set_nth uuid 7 (Z.lor (Z.land (nth 7 uuid 0) 63)
                                        (byte_of (Z.shiftl variantRFC4122 6))) in
      formatUUID (copy_at uuid 8 (Node u))
  end.

(** [encoding/json]'s encoding of a Go string (HTML escaping on, as in
    [json.Marshal]).  Bytes from 0x80 on are passed through: the UTF-8
    validation of that range is not modelled, and every string this
    package marshals is ASCII. *)
Definition json_hex_escape (n : nat) : string :=
  ("\u00" ++ String (hex_digit (Z.of_nat n / 16)) (String (hex_digit (Z.of_nat n mod 16)) EmptyString))%string.

(** The double-quote character (code 34). *)
Definition dquote : ascii := Ascii false true false false false true false false.

Definition json_escape_char (c : ascii) : string :=
  let n := nat_of_ascii c in
  if Ascii.eqb c dquote then String "\" (String dquote EmptyString)
  else if Ascii.eqb c "\" then String "\" (String "\" EmptyString)
  else if Nat.eqb n 10 then "\n"
  else if Nat.eqb n 13 then "\r"
  else if Nat.eqb n 9 then "\t"
  else if Nat.ltb n 32 then json_hex_escape n
  else if Ascii.eqb c "<" || Ascii.eqb c ">" || Ascii.eqb c "&" then json_hex_escape n
  else String c EmptyString.

Fixpoint json_escape (s : string) : string :=
  match s with
  | EmptyString => EmptyString
  | String c s' => (json_escape_char c ++ json_escape s')%string
  end.

(** [json.Marshal(s)] for a Go string [s]. *)
Definition json_Marshal_string (s : string) : string :=
  String dquote (json_escape s ++ String dquote EmptyString)%string.

(** The method [MarshalJSON] of [*UUIDv8]; the receiver [None] is the nil pointer. *)
Definition MarshalJSON (u : option UUIDv8) : result string :=
  match u with
  | None => Err ErrInvalidObject
  | Some u =>
      if negb (Nat.eqb (List.length (Node u)) 6) || (Timestamp u =? 0) || (ClockSeq u >? 4095)
      then Err ErrInvalidObject
      else
        let uuidStr := ToString u in
        if negb (IsValidUUIDv8 uuidStr) then Err ErrInvalidString
        else Ok (json_Marshal_string uuidStr)
  end.

(** The errors of [New], [UnmarshalJSON] and [Scan]: their own messages,
    and the package's errors they pass through unchanged.  The wrapped
    errors of crypto/rand and encoding/json are not modelled. *)
Inductive ext_error :=
| ErrRandClockSeq                 (* "failed to generate random clock sequence: %w" *)
| ErrRandNode                     (* "failed to generate random node: %w" *)
| ErrUnmarshalJSON                (* "failed to unmarshal JSON: %w" *)
| ErrNotValidUUIDv8 (s : string)  (* "input is not a valid UUIDv8: %s" *)
| ErrParseUUIDString (e : error)  (* "failed to parse UUID string: %w" *)
| ErrUnsupportedScanType          (* "unsupported type for UUIDv8" *)
| ErrPkg (e : error).             (* an error of the package returned as is *)

Inductive ext_result (A : Type) : Type :=
| XOk (a : A)
| XErr (e : ext_error).
Arguments XOk {A} a.
Arguments XErr {A} e.

(** [binary.BigEndian.Uint16(b)]: [uint16(b[1]) | uint16(b[0])<<8]. *)
Definition BigEndian_Uint16 (b : list Z) : Z :=
  Z.lor (nth 1 b 0) (Z.land (Z.shiftl (nth 0 b 0) 8) 65535).

(** [New()].  Its inputs from the environment are parameters:
    [now] is [time.Now().UnixNano()] (an int64), and [rand_clock] and
    [rand_node] are the buffers [rand.Read] fills ([None] when it fails). *)
Definition New (now : Z) (rand_clock rand_node : option (list Z)) : ext_result string :=
  let timestamp := now mod 2 ^ 64 in
  match rand_clock with
  | None => XErr ErrRandClockSeq
  | Some clockSeq =>
      let clockSeqValue := Z.land (BigEndian_Uint16 clockSeq) 4095 in
      match rand_node with
      | None => XErr ErrRandNode
      | Some node =>
          match NewWithParams timestamp clockSeqValue node TimestampBits48 with
          | Ok s => XOk s
          | Err e => XErr (ErrPkg e)
          end
      end
  end.

(** The method [UnmarshalJSON] of [*UUIDv8] on a non-nil receiver holding
    [u]; it returns the new value of [*u] and the error.  [json_Unmarshal]
    stands for encoding/json: the string [json.Unmarshal(data, &uuidStr)]
    leaves in [uuidStr], or [None] when it fails. *)
Definition UnmarshalJSON (json_Unmarshal : string -> option string) (u : UUIDv8) (data : string)
  : UUIDv8 * option ext_error :=
  match json_Unmarshal data with
  | None => (u, Some ErrUnmarshalJSON)
  | Some uuidStr =>
      if negb (IsValidUUIDv8 uuidStr) then (u, Some (ErrNotValidUUIDv8 uuidStr))
      else match FromString uuidStr with
           | Err e => (u, Some (ErrParseUUIDString e))
           | Ok parsed => (parsed, None)
           end
  end.

(** The method [Value] of [*UUIDv8]: [None] is the nil [driver.Value];
    the error it returns is always nil. *)
Definition Value (u : option UUIDv8) : option string :=
  match u with
  | None => None
  | Some u => if negb (Nat.eqb (List.length (Node u)) 6) then None else Some (ToString u)
  end.

(** The dynamic types [Scan] distinguishes. *)
Inductive scan_value :=
| ScanString (v : string)
| ScanBytes (v : list Z)
| ScanOther.

(** Go's conversion [string(v)] of a byte slice. *)
Definition string_of_bytes (v : list Z) : string :=
  fold_right (fun x s => String (ascii_of_nat (Z.to_nat x)) s) EmptyString v.

(** The method [Scan] of [*UUIDv8] on a non-nil receiver holding [u]: the
    new value of [*u] and the error. *)
Definition Scan (u : UUIDv8) (value : scan_value) : UUIDv8 * option ext_error :=
  match value with
  | ScanString v =>
      match FromString v with
      | Err e => (u, Some (ErrPkg e))
      | Ok parsed => (parsed, None)
      end
  | ScanBytes v =>
      match FromString (string_of_bytes v) with
      | Err e => (u, Some (ErrPkg e))
      | Ok parsed => (parsed, None)
      end
  | ScanOther => (u, Some ErrUnsupportedScanType)
  end.

(** A lower-case hexadecimal digit, the class [[0-9a-f]] of the
    canonical-form regular expression. *)
Definition is_lower_hex (c : ascii) : bool :=
  let n := nat_of_ascii c in
  (Nat.leb 48 n && Nat.leb n 57) || (Nat.leb 97 n && Nat.leb n 102).

(* ------------------------------------------------------------------ *)
(** * Sample evaluations *)

Example NewWithParams_sample :
  NewWithParams 1633024800000000000 0 [1;2;3;4;5;6] TimestampBits48
  = Ok "ab674967-4000-8080-0102-030405060000".
Proof. reflexivity. Qed.

Example FromString_sample :
  FromString "9a3d4049-0e2c-8080-0102-030405060000"
  = Ok (mkUUIDv8 169587862212140 128 [1;2;3;4;5;6]).
Proof. reflexivity. Qed.

Example IsValidUUIDv8_wrong_version :
  IsValidUUIDv8 "9a3d4049-0e2c-7080-0102-030405060000" = false.
Proof. reflexivity. Qed.

(* ------------------------------------------------------------------ *)
(** * Bytes and digits *)

Arguments hex_digit : simpl never.

(** A property of every [Z] in [0, N) follows from checking it on each. *)
Lemma range_check (N : nat) (f : Z -> bool) :
  forallb (fun n => f (Z.of_nat n)) (seq 0 N) = true ->
  forall x, 0 <= x < Z.of_nat N -> f x = true.
Proof.
  intros Hall x Hx.
  rewrite forallb_forall in Hall.
  replace x with (Z.of_nat (Z.to_nat x)) by lia.
  apply Hall, in_seq; lia.
Qed.

Lemma byte_of_is_byte (x : Z) : is_byte (byte_of x).
Proof.
  unfold is_byte, byte_of.
  change 255 with (Z.ones 8).
  rewrite Z.land_ones by lia.
  apply Z.mod_pos_bound; lia.
Qed.

Lemma get_ldigits_high (n : nat) : (16 <= n)%nat -> String.get n ldigits = None.
Proof. intros H. do 16 (destruct n as [|n]; [lia|]). reflexivity. Qed.

Lemma hex_digit_cases (d : Z) :
  (16 <= Z.to_nat d)%nat \/ exists k, (k < 16)%nat /\ Z.to_nat d = k.
Proof.
  destruct (Nat.lt_ge_cases (Z.to_nat d) 16) as [H|H]; [right; eauto | left; exact H].
Qed.

Lemma hex_digit_lower (d : Z) : is_lower_hex (hex_digit d) = true.
Proof.
  unfold hex_digit.
  destruct (hex_digit_cases d) as [H | [k [Hk ->]]].
  - rewrite get_ldigits_high by exact H. reflexivity.
  - do 16 (destruct k as [|k]; [reflexivity|]). lia.
Qed.

Lemma hex_digit_not_dash (d : Z) : Ascii.eqb (hex_digit d) "-" = false.
Proof.
  unfold hex_digit.
  destruct (hex_digit_cases d) as [H | [k [Hk ->]]].
  - rewrite get_ldigits_high by exact H. reflexivity.
  - do 16 (destruct k as [|k]; [reflexivity|]). lia.
Qed.

(** One byte through [%x] and back through [hex.Decode]. *)
Definition byte_hex_ok (b : Z) : bool :=
  match fromHexChar (hex_digit (Z.shiftr b 4)), fromHexChar (hex_digit (Z.land b 15)) with
  | Some a, Some c => Z.lor (byte_of (Z.shiftl a 4)) c =? b
  | _, _ => false
  end.

Lemma byte_hex_ok_all (b : Z) : is_byte b -> byte_hex_ok b = true.
Proof.
  intros Hb. apply (range_check 256); [vm_compute; reflexivity | exact Hb].
Qed.

Lemma hex_decode_hex_of_bytes (l : list Z) :
  Forall is_byte l -> hex_decode (hex_of_bytes l) = Ok l.
Proof.
  induction 1 as [|b l Hb _ IH]; [reflexivity|].
  cbn [hex_of_bytes hex_decode].
  pose proof (byte_hex_ok_all b Hb) as E. unfold byte_hex_ok in E.
  destruct (fromHexChar (hex_digit (Z.shiftr b 4))); [|discriminate].
  destruct (fromHexChar (hex_digit (Z.land b 15))); [|discriminate].
  rewrite IH. apply Z.eqb_eq in E. rewrite E. reflexivity.
Qed.

Lemma length_hex_of_bytes (l : list Z) :
  String.length (hex_of_bytes l) = (2 * List.length l)%nat.
Proof. induction l as [|b l IH]; cbn [hex_of_bytes String.length List.length]; lia. Qed.

Lemma drop_dashes_hex_of_bytes (l : list Z) : drop_dashes (hex_of_bytes l) = hex_of_bytes l.
Proof.
  induction l as [|b l IH]; [reflexivity|].
  cbn [hex_of_bytes drop_dashes]. rewrite !hex_digit_not_dash, IH. reflexivity.
Qed.

(** The regular expression
    [^[0-9a-f]{8}-[0-9a-f]{4}-[0-9a-f]{4}-[0-9a-f]{4}-[0-9a-f]{12}$]
    as a matcher: [hex_run n] consumes exactly [n] characters of [[0-9a-f]]. *)
Fixpoint hex_run (n : nat) (s : string) : option string :=
  match n with
  | O => Some s
  | S n' =>
      match s with
      | String c s' => if is_lower_hex c then hex_run n' s' else None
      | EmptyString => None
      end
  end.

Definition dash_then (s : string) : option string :=
  match s with
  | String c s' => if Ascii.eqb c "-" then Some s' else None
  | EmptyString => None
  end.

Definition obind (o : option string) (f : string -> option string) : option string :=
  match o with Some s => f s | None => None end.

Definition canonical_form (s : string) : bool :=
  match obind (hex_run 8 s) (fun s =>
        obind (dash_then s) (fun s => obind (hex_run 4 s) (fun s =>
        obind (dash_then s) (fun s => obind (hex_run 4 s) (fun s =>
        obind (dash_then s) (fun s => obind (hex_run 4 s) (fun s =>
        obind (dash_then s) (fun s => hex_run 12 s)))))))) with
  | Some EmptyString => true
  | _ => false
  end.

(* ------------------------------------------------------------------ *)
(** * The text form of a 16-byte buffer *)

Ltac destruct16 b :=
  do 16 (destruct b as [|? b]; [discriminate|]);
  destruct b; [|discriminate].

Lemma fmt_pad_exact (w : nat) (s : string) : String.length s = w -> fmt_pad w s = s.
Proof.
  intros H. unfold fmt_pad. rewrite H, Nat.ltb_irrefl. reflexivity.
Qed.

Lemma formatUUID_groups (b : list Z) : List.length b = 16%nat ->
  formatUUID b =
  (hex_of_bytes (slice b 0 4) ++ "-" ++ hex_of_bytes (slice b 4 6) ++ "-" ++
   hex_of_bytes (slice b 6 8) ++ "-" ++ hex_of_bytes (slice b 8 10) ++ "-" ++
   hex_of_bytes (slice b 10 16))%string.
Proof.
  intros Hl. unfold formatUUID, fmt_x.
  assert (Hs : forall i j, (i <= j <= 16)%nat ->
            String.length (hex_of_bytes (slice b i j)) = (2 * (j - i))%nat).
  { intros i j Hij. rewrite length_hex_of_bytes. unfold slice.
    rewrite length_firstn, length_skipn. lia. }
  rewrite !fmt_pad_exact by (rewrite Hs; lia).
  reflexivity.
Qed.

Lemma hex_of_bytes_app (l1 l2 : list Z) :
  hex_of_bytes (l1 ++ l2) = (hex_of_bytes l1 ++ hex_of_bytes l2)%string.
Proof. induction l1 as [|b l1 IH]; cbn; [reflexivity | rewrite IH; reflexivity]. Qed.

Lemma str_length_app (s1 s2 : string) :
  String.length (s1 ++ s2) = (String.length s1 + String.length s2)%nat.
Proof. induction s1 as [|c s1 IH]; cbn; [reflexivity | rewrite IH; reflexivity]. Qed.

Lemma str_app_empty_r (s : string) : (s ++ EmptyString)%string = s.
Proof. induction s as [|c s IH]; cbn; [reflexivity | rewrite IH; reflexivity]. Qed.

Lemma drop_dashes_app (s1 s2 : string) :
  drop_dashes (s1 ++ s2) = (drop_dashes s1 ++ drop_dashes s2)%string.
Proof.
  induction s1 as [|c s1 IH]; cbn; [reflexivity|].
  rewrite IH. destruct (Ascii.eqb c "-"); reflexivity.
Qed.

Lemma hex_run_hex_of_bytes (l : list Z) (rest : string) :
  hex_run (2 * List.length l) (hex_of_bytes l ++ rest) = Some rest.
Proof.
  induction l as [|b l IH]; [reflexivity|].
  replace (2 * List.length (b :: l))%nat with (S (S (2 * List.length l))) by (cbn; lia).
  cbn [hex_of_bytes String.append hex_run]. rewrite !hex_digit_lower. exact IH.
Qed.

Lemma get_app_length (s1 s2 : string) (k : nat) :
  String.get (String.length s1 + k) (s1 ++ s2) = String.get k s2.
Proof. induction s1 as [|c s1 IH]; cbn; [reflexivity | exact IH]. Qed.

Lemma slices16 (b : list Z) : List.length b = 16%nat ->
  b = slice b 0 4 ++ slice b 4 6 ++ slice b 6 8 ++ slice b 8 10 ++ slice b 10 16.
Proof. intros Hl. destruct16 b. reflexivity. Qed.

Lemma length_slice (b : list Z) (i j : nat) : List.length b = 16%nat -> (i <= j <= 16)%nat ->
  List.length (slice b i j) = (j - i)%nat.
Proof. intros Hl Hij. unfold slice. rewrite length_firstn, length_skipn. lia. Qed.

Lemma formatUUID_length (b : list Z) : List.length b = 16%nat ->
  String.length (formatUUID b) = 36%nat.
Proof.
  intros Hl. rewrite formatUUID_groups by exact Hl.
  rewrite !str_length_app, !length_hex_of_bytes, !length_slice by (exact Hl || lia).
  reflexivity.
Qed.

Lemma formatUUID_dashes (b : list Z) : List.length b = 16%nat ->
  char_at (formatUUID b) 8 = Some "-"%char /\ char_at (formatUUID b) 13 = Some "-"%char /\
  char_at (formatUUID b) 18 = Some "-"%char /\ char_at (formatUUID b) 23 = Some "-"%char.
Proof.
  intros Hl. unfold char_at. rewrite formatUUID_groups by exact Hl.
  set (g1 := hex_of_bytes (slice b 0 4)). set (g2 := hex_of_bytes (slice b 4 6)).
  set (g3 := hex_of_bytes (slice b 6 8)). set (g4 := hex_of_bytes (slice b 8 10)).
  assert (L1 : String.length g1 = 8%nat)
    by (unfold g1; rewrite length_hex_of_bytes, length_slice by (exact Hl || lia); reflexivity).
  assert (L2 : String.length g2 = 4%nat)
    by (unfold g2; rewrite length_hex_of_bytes, length_slice by (exact Hl || lia); reflexivity).
  assert (L3 : String.length g3 = 4%nat)
    by (unfold g3; rewrite length_hex_of_bytes, length_slice by (exact Hl || lia); reflexivity).
  assert (L4 : String.length g4 = 4%nat)
    by (unfold g4; rewrite length_hex_of_bytes, length_slice by (exact Hl || lia); reflexivity).
  repeat split.
  - replace 8%nat with (String.length g1 + 0)%nat by lia. rewrite get_app_length. reflexivity.
  - replace 13%nat with (String.length g1 + (S (String.length g2 + 0)))%nat by lia.
    rewrite get_app_length. cbn [String.get String.append]. rewrite get_app_length. reflexivity.
  - replace 18%nat with (String.length g1 + (S (String.length g2 + (S (String.length g3 + 0)))))%nat by lia.
    rewrite get_app_length. cbn [String.get String.append]. rewrite get_app_length.
    cbn [String.get String.append]. rewrite get_app_length. reflexivity.
  - replace 23%nat with (String.length g1 + (S (String.length g2 + (S (String.length g3
      + (S (String.length g4 + 0)))))))%nat by lia.
    rewrite get_app_length. cbn [String.get String.append]. rewrite get_app_length.
    cbn [String.get String.append]. rewrite get_app_length.
    cbn [String.get String.append]. rewrite get_app_length. reflexivity.
Qed.

Lemma drop_dashes_formatUUID (b : list Z) : List.length b = 16%nat ->
  drop_dashes (formatUUID b) = hex_of_bytes b.
Proof.
  intros Hl. rewrite formatUUID_groups by exact Hl.
  rewrite !drop_dashes_app, !drop_dashes_hex_of_bytes.
  rewrite (slices16 b Hl) at 6. rewrite !hex_of_bytes_app. reflexivity.
Qed.

Lemma formatUUID_canonical (b : list Z) : List.length b = 16%nat ->
  canonical_form (formatUUID b) = true.
Proof.
  intros Hl. rewrite formatUUID_groups by exact Hl. unfold canonical_form.
  assert (H : forall i j n rest, (i <= j <= 16)%nat -> n = (2 * (j - i))%nat ->
            hex_run n (hex_of_bytes (slice b i j) ++ rest) = Some rest).
  { intros i j n rest Hij ->. rewrite <- (length_slice b i j Hl Hij). apply hex_run_hex_of_bytes. }
  rewrite (H 0%nat 4%nat 8%nat) by lia. cbn [obind dash_then String.append Ascii.eqb Bool.eqb andb].
  rewrite (H 4%nat 6%nat 4%nat) by lia. cbn [obind dash_then String.append Ascii.eqb Bool.eqb andb].
  rewrite (H 6%nat 8%nat 4%nat) by lia. cbn [obind dash_then String.append Ascii.eqb Bool.eqb andb].
  rewrite (H 8%nat 10%nat 4%nat) by lia. cbn [obind dash_then String.append Ascii.eqb Bool.eqb andb].
  rewrite <- (str_app_empty_r (hex_of_bytes (slice b 10 16))).
  rewrite (H 10%nat 16%nat 12%nat) by lia. reflexivity.
Qed.

(** Parsing the text form of any 16-byte buffer gives the buffer back. *)
Lemma parseUUID_formatUUID (b : list Z) :
  List.length b = 16%nat -> Forall is_byte b -> parseUUID (formatUUID b) = Ok b.
Proof.
  intros Hl Hb.
  pose proof (formatUUID_dashes b Hl) as (D8 & D13 & D18 & D23).
  unfold parseUUID. rewrite formatUUID_length by exact Hl.
  cbn [Nat.eqb]. rewrite D8, D13, D18, D23. cbn [is_dash Ascii.eqb negb orb].
  unfold strip_dashes. rewrite drop_dashes_formatUUID by exact Hl.
  rewrite length_hex_of_bytes, Hl. cbn [Nat.leb Nat.mul Nat.add Nat.sub nuls].
  rewrite str_app_empty_r.
  apply hex_decode_hex_of_bytes, Hb.
Qed.

(* ------------------------------------------------------------------ *)
(** * The buffer built by the encoder *)

(** Bytes 0-5 as [encodeTimestamp] leaves them for each width (for width 60
    byte 6 is written too, but [NewWithParams] overwrites it). *)
Definition ts_bytes (timestampBits timestamp : Z) : list Z :=
  if timestampBits =? TimestampBits32 then
    [byte_of (Z.shiftr timestamp 24); byte_of (Z.shiftr timestamp 16);
     byte_of (Z.shiftr timestamp 8); byte_of timestamp; 0; 0]
  else if timestampBits =? TimestampBits48 then
    [byte_of (Z.shiftr timestamp 40); byte_of (Z.shiftr timestamp 32);
     byte_of (Z.shiftr timestamp 24); byte_of (Z.shiftr timestamp 16);
     byte_of (Z.shiftr timestamp 8); byte_of timestamp]
  else
    [byte_of (Z.shiftr timestamp 52); byte_of (Z.shiftr timestamp 44);
     byte_of (Z.shiftr timestamp 36); byte_of (Z.shiftr timestamp 28);
     byte_of (Z.shiftr timestamp 20); byte_of (Z.shiftr timestamp 12)].

(** Byte 6: version nibble OR'ed with [byte(clockSeq >> 8)]. *)
Definition ver_byte (clockSeq : Z) : Z := Z.lor 128 (byte_of (Z.shiftr clockSeq 8)).

(** Byte 7: low byte of the clock sequence under the variant bits. *)
Definition var_byte (clockSeq : Z) : Z := Z.lor (Z.land (byte_of clockSeq) 63) 128.

Definition supported_width (timestampBits : Z) : bool :=
  (timestampBits =? TimestampBits32) || (timestampBits =? TimestampBits48)
  || (timestampBits =? TimestampBits60).

Lemma encodeUUID_layout (timestamp clockSeq : Z) (node : list Z) (timestampBits : Z) :
  List.length node = 6%nat -> supported_width timestampBits = true ->
  encodeUUID timestamp clockSeq node timestampBits
  = Ok (ts_bytes timestampBits timestamp ++ [ver_byte clockSeq; var_byte clockSeq] ++ node ++ [0; 0]).
Proof.
  intros Hn Hw. unfold encodeUUID. rewrite Hn. cbn [Nat.eqb negb].
  do 6 (destruct node as [|? node]; [discriminate|]). destruct node; [|discriminate].
  unfold supported_width in Hw. unfold encodeTimestamp, ts_bytes.
  destruct (timestampBits =? TimestampBits32); [reflexivity|].
  destruct (timestampBits =? TimestampBits48); [reflexivity|].
  destruct (timestampBits =? TimestampBits60); [reflexivity | discriminate].
Qed.

Lemma encodeUUID_error (timestamp clockSeq : Z) (node : list Z) (timestampBits : Z) :
  (List.length node <> 6%nat ->
   encodeUUID timestamp clockSeq node timestampBits = Err (ErrNodeLength (List.length node))) /\
  (List.length node = 6%nat -> supported_width timestampBits = false ->
   encodeUUID timestamp clockSeq node timestampBits = Err (ErrTimestampBits timestampBits)).
Proof.
  split.
  - intros Hn. unfold encodeUUID.
    destruct (Nat.eqb_spec (List.length node) 6); [contradiction | reflexivity].
  - intros Hn Hw. unfold encodeUUID. rewrite Hn. cbn [Nat.eqb negb].
    unfold supported_width in Hw. unfold encodeTimestamp.
    apply orb_false_elim in Hw as [Hw H60]. apply orb_false_elim in Hw as [H32 H48].
    rewrite H32, H48, H60. reflexivity.
Qed.

Lemma ts_bytes_bytes (timestampBits timestamp : Z) :
  Forall is_byte (ts_bytes timestampBits timestamp) /\ List.length (ts_bytes timestampBits timestamp) = 6%nat.
Proof.
  assert (H0 : is_byte 0) by (unfold is_byte; lia).
  unfold ts_bytes.
  destruct (timestampBits =? TimestampBits32); [|destruct (timestampBits =? TimestampBits48)];
    split; try reflexivity; repeat apply Forall_cons; auto using byte_of_is_byte.
Qed.

(** Two-argument exhaustive check over bytes. *)
Lemma byte_pair_check (f : Z -> Z -> bool) :
  forallb (fun a => forallb (fun c => f (Z.of_nat a) (Z.of_nat c)) (seq 0 256)) (seq 0 256) = true ->
  forall a c, is_byte a -> is_byte c -> f a c = true.
Proof.
  intros Hall a c Ha Hc. unfold is_byte in *.
  apply (range_check 256 (fun c => f a c)); [|lia].
  apply (range_check 256 (fun a => forallb (fun c => f a (Z.of_nat c)) (seq 0 256))); [|lia].
  exact Hall.
Qed.

Lemma lor_is_byte (a c : Z) : is_byte a -> is_byte c -> is_byte (Z.lor a c).
Proof.
  intros Ha Hc.
  assert (E : (fun a c => (0 <=? Z.lor a c) && (Z.lor a c <? 256)) a c = true)
    by (apply (byte_pair_check (fun a c => (0 <=? Z.lor a c) && (Z.lor a c <? 256)));
        [vm_compute; reflexivity | exact Ha | exact Hc]).
  cbn beta in E. apply andb_prop in E as [E1 E2].
  apply Z.leb_le in E1. apply Z.ltb_lt in E2. unfold is_byte. lia.
Qed.

Lemma ver_var_bytes (clockSeq : Z) : is_byte (ver_byte clockSeq) /\ is_byte (var_byte clockSeq).
Proof.
  assert (H128 : is_byte 128) by (unfold is_byte; lia).
  assert (Hl : is_byte (Z.land (byte_of clockSeq) 63)).
  { unfold is_byte. change 63 with (Z.ones 6). rewrite Z.land_ones by lia.
    pose proof (Z.mod_pos_bound (byte_of clockSeq) (2 ^ 6)). cbn in *; lia. }
  split; [apply lor_is_byte | apply lor_is_byte]; auto using byte_of_is_byte.
Qed.

Lemma encoded_buffer_bytes (timestamp clockSeq : Z) (node : list Z) (timestampBits : Z) (b : list Z) :
  Forall is_byte node -> encodeUUID timestamp clockSeq node timestampBits = Ok b ->
  List.length b = 16%nat /\ Forall is_byte b.
Proof.
  intros Hn E.
  destruct (Nat.eq_dec (List.length node) 6) as [Hl|Hl];
    [|rewrite (proj1 (encodeUUID_error _ _ _ _) Hl) in E; discriminate].
  destruct (supported_width timestampBits) eqn:Hw;
    [|rewrite (proj2 (encodeUUID_error _ _ _ _) Hl Hw) in E; discriminate].
  rewrite encodeUUID_layout in E by assumption. injection E as <-.
  destruct (ts_bytes_bytes timestampBits timestamp) as [Ht Htl].
  destruct (ver_var_bytes clockSeq) as [Hv Hr].
  split.
  - rewrite !length_app; cbn [List.length]; rewrite ?length_app, Htl, Hl. reflexivity.
  - apply Forall_app; split; [exact Ht|].
    apply Forall_cons; [exact Hv|]. apply Forall_cons; [exact Hr|].
    apply Forall_app; split; [exact Hn|].
    repeat apply Forall_cons; try apply Forall_nil; unfold is_byte; lia.
Qed.

(* ------------------------------------------------------------------ *)
(** * Bit-level facts about bytes 6 and 7 *)

Lemma ver_byte_version (clockSeq : Z) : 0 <= clockSeq < 4096 ->
  Z.shiftr (ver_byte clockSeq) 4 = versionV8.
Proof.
  intros H. apply Z.eqb_eq.
  apply (range_check 4096 (fun c => Z.shiftr (ver_byte c) 4 =? versionV8)); [|exact H].
  vm_compute. reflexivity.
Qed.

Lemma var_byte_variant (clockSeq : Z) :
  Z.land (Z.shiftr (var_byte clockSeq) 6) 3 = variantRFC4122.
Proof.
  unfold var_byte. apply Z.eqb_eq.
  apply (range_check 256 (fun x => Z.land (Z.shiftr (Z.lor (Z.land x 63) 128) 6) 3 =? variantRFC4122)).
  - vm_compute. reflexivity.
  - apply byte_of_is_byte.
Qed.

Lemma ver_byte_nonzero (clockSeq : Z) : ver_byte clockSeq <> 0.
Proof.
  unfold ver_byte. intros E.
  apply Z.lor_eq_0_iff in E as [E _]. discriminate.
Qed.

(** The clock sequence read back from bytes 6 and 7: bits 6 and 7 carry
    the variant [10] instead of the caller's bits. *)
Lemma clockSeq_read_back (clockSeq : Z) : 0 <= clockSeq < 4096 ->
  Z.lor (Z.shiftl (Z.land (ver_byte clockSeq) 15) 8) (var_byte clockSeq)
  = Z.lor (Z.land clockSeq 3903) 128.
Proof.
  intros H. apply Z.eqb_eq.
  apply (range_check 4096 (fun c =>
     Z.lor (Z.shiftl (Z.land (ver_byte c) 15) 8) (var_byte c) =? Z.lor (Z.land c 3903) 128));
    [|exact H].
  vm_compute. reflexivity.
Qed.

Lemma clockSeq_decoded_bound (b6 b7 : Z) : is_byte b6 -> is_byte b7 ->
  0 <= Z.lor (Z.shiftl (Z.land b6 15) 8) b7 <= 4095.
Proof.
  intros H6 H7.
  assert (E : (fun a c => (0 <=? Z.lor (Z.shiftl (Z.land a 15) 8) c)
                          && (Z.lor (Z.shiftl (Z.land a 15) 8) c <=? 4095)) b6 b7 = true)
    by (apply (byte_pair_check (fun a c => (0 <=? Z.lor (Z.shiftl (Z.land a 15) 8) c)
                          && (Z.lor (Z.shiftl (Z.land a 15) 8) c <=? 4095)));
        [vm_compute; reflexivity | exact H6 | exact H7]).
  cbn beta in E. apply andb_prop in E as [E1 E2].
  apply Z.leb_le in E1. apply Z.leb_le in E2. lia.
Qed.

(* ------------------------------------------------------------------ *)
(** * The 48-bit timestamp window *)

Lemma testbit_byte_at (x k n : Z) : 0 <= k -> 0 <= n ->
  Z.testbit (Z.shiftl (byte_of (Z.shiftr x k)) k) n = (k <=? n) && (n <? k + 8) && Z.testbit x n.
Proof.
  intros Hk Hn. rewrite Z.shiftl_spec by exact Hn. unfold byte_of.
  destruct (Z.leb_spec k n) as [Hkn|Hkn].
  - rewrite Z.land_spec, Z.shiftr_spec by lia.
    change 255 with (Z.ones 8). rewrite Z.testbit_ones_nonneg by lia.
    replace (n - k + k) with n by lia.
    destruct (Z.ltb_spec (n - k) 8), (Z.ltb_spec n (k + 8)); try lia; cbn; btauto.
  - rewrite Z.testbit_neg_r by lia. reflexivity.
Qed.

Ltac split_bounds :=
  repeat match goal with
  | |- context [?a <=? ?b] => destruct (Z.leb_spec a b); try lia
  | |- context [?a <? ?b] => destruct (Z.ltb_spec a b); try lia
  end.

Lemma decode_ts48 (timestamp : Z) : 0 <= timestamp ->
  decodeTimestamp (ts_bytes TimestampBits48 timestamp) = timestamp mod 2 ^ 48.
Proof.
  intros Ht. unfold decodeTimestamp.
  cbv [ts_bytes TimestampBits32 TimestampBits48 Z.eqb Pos.eqb nth].
  apply Z.bits_inj'. intros n Hn.
  rewrite !Z.lor_spec, !testbit_byte_at by lia.
  replace (byte_of timestamp) with (Z.shiftl (byte_of (Z.shiftr timestamp 0)) 0)
    by (rewrite Z.shiftl_0_r, Z.shiftr_0_r; reflexivity).
  rewrite testbit_byte_at by lia.
  destruct (Z.ltb_spec n 48).
  - rewrite Z.mod_pow2_bits_low by lia. split_bounds; cbn; btauto.
  - rewrite Z.mod_pow2_bits_high by lia. split_bounds; cbn; btauto.
Qed.

(* ------------------------------------------------------------------ *)
(** * Decoding a parsed buffer *)

Lemma FromString_parsed (s : string) (b : list Z) :
  parseUUID s = Ok b -> List.length b = 16%nat ->
  FromString s = Ok (mkUUIDv8 (decodeTimestamp (slice b 0 6))
                              (Z.lor (Z.shiftl (Z.land (nth 6 b 0) 15) 8) (nth 7 b 0))
                              (slice b 8 14)).
Proof.
  intros Hp Hl. unfold FromString. rewrite Hp. destruct16 b. reflexivity.
Qed.

Lemma encoded_fields (timestamp clockSeq : Z) (node : list Z) (timestampBits : Z) :
  List.length node = 6%nat ->
  let b := ts_bytes timestampBits timestamp ++ [ver_byte clockSeq; var_byte clockSeq] ++ node ++ [0; 0] in
  slice b 0 6 = ts_bytes timestampBits timestamp /\ nth 6 b 0 = ver_byte clockSeq /\
  nth 7 b 0 = var_byte clockSeq /\ slice b 8 14 = node.
Proof.
  intros Hn b. subst b.
  do 6 (destruct node as [|? node]; [discriminate|]). destruct node; [|discriminate].
  unfold ts_bytes.
  destruct (timestampBits =? TimestampBits32); [|destruct (timestampBits =? TimestampBits48)];
    repeat split; reflexivity.
Qed.

(** Validity of every buffer the encoder builds from a 12-bit clock sequence. *)
Lemma IsValid_encoded (timestamp clockSeq : Z) (node : list Z) (timestampBits : Z) :
  0 <= clockSeq < 4096 -> List.length node = 6%nat -> Forall is_byte node ->
  supported_width timestampBits = true ->
  IsValidUUIDv8 (formatUUID (ts_bytes timestampBits timestamp
                   ++ [ver_byte clockSeq; var_byte clockSeq] ++ node ++ [0; 0])) = true.
Proof.
  intros Hc Hn Hb Hw.
  pose proof (encodeUUID_layout timestamp clockSeq node timestampBits Hn Hw) as E.
  destruct (encoded_buffer_bytes _ _ _ _ _ Hb E) as [Hl Hbytes].
  destruct (encoded_fields timestamp clockSeq node timestampBits Hn) as (_ & H6 & H7 & _).
  unfold IsValidUUIDv8. rewrite parseUUID_formatUUID by assumption.
  replace (isAllZeroUUID _) with false.
  - rewrite H6, H7, ver_byte_version, var_byte_variant by exact Hc.
    rewrite !Z.eqb_refl. reflexivity.
  - symmetry. apply not_true_iff_false. intros Z0. unfold isAllZeroUUID in Z0.
    rewrite forallb_forall in Z0.
    assert (Hin : In (ver_byte clockSeq)
                    (ts_bytes timestampBits timestamp ++ [ver_byte clockSeq; var_byte clockSeq] ++ node ++ [0; 0]))
      by (apply in_or_app; right; left; reflexivity).
    apply Z0, Z.eqb_eq in Hin. exact (ver_byte_nonzero clockSeq Hin).
Qed.

(* ------------------------------------------------------------------ *)
(** * C1: the field round trip at width 48 *)

(** C1 (as amended): at width 48, for a uint64 timestamp, a clock sequence
    of at most 4095 and a 6-byte node, [FromString] of the string returned
    by [NewWithParams] gives back the node exactly, the timestamp modulo
    [2^48], and the clock sequence with its bits 7 and 6 replaced by the
    variant bits [10], i.e. [(clockSeq & 0xF3F) | 0x80]. *)
Theorem C1_round_trip_48 (timestamp clockSeq : Z) (node : list Z) :
  0 <= timestamp < 2 ^ 64 -> 0 <= clockSeq <= 4095 ->
  List.length node = 6%nat -> Forall is_byte node ->
  exists s, NewWithParams timestamp clockSeq node TimestampBits48 = Ok s /\
    FromString s = Ok (mkUUIDv8 (timestamp mod 2 ^ 48) (Z.lor (Z.land clockSeq 3903) 128) node).
Proof.
  intros Ht Hc Hn Hb.
  assert (Hw : supported_width TimestampBits48 = true) by reflexivity.
  pose proof (encodeUUID_layout timestamp clockSeq node TimestampBits48 Hn Hw) as E.
  destruct (encoded_buffer_bytes _ _ _ _ _ Hb E) as [Hl Hbytes].
  destruct (encoded_fields timestamp clockSeq node TimestampBits48 Hn) as (H0 & H6 & H7 & H8).
  unfold NewWithParams. rewrite E. eexists. split; [reflexivity|].
  rewrite (FromString_parsed _ _ (parseUUID_formatUUID _ Hl Hbytes) Hl).
  rewrite H0, H6, H7, H8, decode_ts48, clockSeq_read_back by lia.
  reflexivity.
Qed.

Lemma C1_round_trip_48_witness :
  (0 <= 1633024800000000000 < 2 ^ 64 /\ 0 <= 1234 <= 4095 /\
   List.length [1; 2; 3; 4; 5; 6] = 6%nat /\ Forall is_byte [1; 2; 3; 4; 5; 6]) /\
  exists s, NewWithParams 1633024800000000000 1234 [1; 2; 3; 4; 5; 6] TimestampBits48 = Ok s /\
    FromString s = Ok (mkUUIDv8 (1633024800000000000 mod 2 ^ 48)
                         (Z.lor (Z.land 1234 3903) 128) [1; 2; 3; 4; 5; 6]).
Proof.
  assert (Hb : Forall is_byte [1; 2; 3; 4; 5; 6])
    by (repeat apply Forall_cons; try apply Forall_nil; unfold is_byte; lia).
  split; [repeat split; (lia || reflexivity || exact Hb) |].
  apply (C1_round_trip_48 1633024800000000000 1234 [1; 2; 3; 4; 5; 6]);
    (lia || reflexivity || exact Hb).
Defined.

(** C1 fails as stated: clock sequence 0 is read back as 128. *)
Lemma C1_clockSeq_zero_read_back_as_128 :
  NewWithParams 1 0 [1; 2; 3; 4; 5; 6] TimestampBits48 = Ok "00000000-0001-8080-0102-030405060000" /\
  FromString "00000000-0001-8080-0102-030405060000" = Ok (mkUUIDv8 1 128 [1; 2; 3; 4; 5; 6]) /\
  128 <> 0.
Proof. split; [reflexivity | split; [reflexivity | discriminate]]. Qed.

(* ------------------------------------------------------------------ *)
(** * C2 and C3: the clock sequence's high bits and the version nibble *)

(** C2: with clock sequence 0x1000 (a valid uint16), byte 6 is
    [0x80 | byte(0x1000 >> 8)] = 0x90: its upper nibble is 9, not the
    version 8, and [IsValidUUIDv8] rejects the string [NewWithParams]
    returned. *)
Theorem C2_clockSeq_0x1000_overwrites_version :
  NewWithParams 1 4096 [1; 2; 3; 4; 5; 6] TimestampBits48 = Ok "00000000-0001-9080-0102-030405060000" /\
  Z.shiftr (ver_byte 4096) 4 = 9 /\
  IsValidUUIDv8 "00000000-0001-9080-0102-030405060000" = false.
Proof. split; [reflexivity | split; reflexivity]. Qed.

(** C3: [NewWithParams] does not reduce the clock sequence to its low 12
    bits: 0x1000 and 0x1000 mod 4096 = 0 give different strings. *)
Theorem C3_clockSeq_not_masked :
  NewWithParams 1 4096 [1; 2; 3; 4; 5; 6] TimestampBits48 = Ok "00000000-0001-9080-0102-030405060000" /\
  NewWithParams 1 (4096 mod 4096) [1; 2; 3; 4; 5; 6] TimestampBits48
    = Ok "00000000-0001-8080-0102-030405060000" /\
  NewWithParams 1 4096 [1; 2; 3; 4; 5; 6] TimestampBits48
    <> NewWithParams 1 (4096 mod 4096) [1; 2; 3; 4; 5; 6] TimestampBits48.
Proof. split; [reflexivity | split; [reflexivity | discriminate]]. Qed.

(* ------------------------------------------------------------------ *)
(** * C4: the text-form round trip *)

(** C4: for every buffer the encoder builds (any timestamp, clock sequence,
    6-byte node and supported width), [parseUUID (formatUUID b) = b]; the
    proof goes through [parseUUID_formatUUID], which holds for every 16-byte
    buffer whatever its version and variant bits. *)
Theorem C4_parse_format_encoded (timestamp clockSeq : Z) (node : list Z) (timestampBits : Z)
  (b : list Z) :
  Forall is_byte node -> encodeUUID timestamp clockSeq node timestampBits = Ok b ->
  parseUUID (formatUUID b) = Ok b.
Proof.
  intros Hn E.
  destruct (encoded_buffer_bytes _ _ _ _ _ Hn E) as [Hl Hb].
  apply parseUUID_formatUUID; assumption.
Qed.

Lemma C4_parse_format_encoded_witness :
  Forall is_byte [1; 2; 3; 4; 5; 6] /\
  encodeUUID 1633024800000000000 1234 [1; 2; 3; 4; 5; 6] TimestampBits60
    = Ok [106; 154; 182; 116; 150; 116; 132; 146; 1; 2; 3; 4; 5; 6; 0; 0] /\
  parseUUID (formatUUID [106; 154; 182; 116; 150; 116; 132; 146; 1; 2; 3; 4; 5; 6; 0; 0])
    = Ok [106; 154; 182; 116; 150; 116; 132; 146; 1; 2; 3; 4; 5; 6; 0; 0].
Proof.
  assert (Hb : Forall is_byte [1; 2; 3; 4; 5; 6])
    by (repeat apply Forall_cons; try apply Forall_nil; unfold is_byte; lia).
  split; [exact Hb|]. split; [reflexivity|].
  apply (C4_parse_format_encoded 1633024800000000000 1234 [1; 2; 3; 4; 5; 6] TimestampBits60);
    [exact Hb | reflexivity].
Defined.

(* ------------------------------------------------------------------ *)
(** * C5: the JSON serialization gate *)

Lemma str_app_assoc (s1 s2 s3 : string) :
  ((s1 ++ s2) ++ s3)%string = (s1 ++ (s2 ++ s3))%string.
Proof. induction s1 as [|c s1 IH]; cbn; [reflexivity | rewrite IH; reflexivity]. Qed.

Lemma json_escape_app (s1 s2 : string) :
  json_escape (s1 ++ s2) = (json_escape s1 ++ json_escape s2)%string.
Proof.
  induction s1 as [|c s1 IH]; cbn [String.append json_escape]; [reflexivity|].
  rewrite IH, str_app_assoc. reflexivity.
Qed.

Lemma json_escape_hex_digit (d : Z) : json_escape_char (hex_digit d) = String (hex_digit d) EmptyString.
Proof.
  unfold hex_digit.
  destruct (hex_digit_cases d) as [H | [k [Hk ->]]].
  - rewrite get_ldigits_high by exact H. reflexivity.
  - do 16 (destruct k as [|k]; [reflexivity|]). lia.
Qed.

Lemma json_escape_hex_of_bytes (l : list Z) : json_escape (hex_of_bytes l) = hex_of_bytes l.
Proof.
  induction l as [|b l IH]; [reflexivity|].
  cbn [hex_of_bytes json_escape]. rewrite !json_escape_hex_digit, IH. reflexivity.
Qed.

Lemma json_escape_formatUUID (b : list Z) : List.length b = 16%nat ->
  json_escape (formatUUID b) = formatUUID b.
Proof.
  intros Hl. rewrite formatUUID_groups by exact Hl.
  rewrite !json_escape_app, !json_escape_hex_of_bytes. reflexivity.
Qed.

Lemma ToString_layout (u : UUIDv8) : List.length (Node u) = 6%nat ->
  ToString u = formatUUID (ts_bytes TimestampBits48 (Timestamp u)
                 ++ [ver_byte (ClockSeq u); var_byte (ClockSeq u)] ++ Node u ++ [0; 0]).
Proof.
  destruct u as [t c n]. cbn [Node Timestamp ClockSeq]. intros Hn.
  do 6 (destruct n as [|? n]; [discriminate|]). destruct n; [|discriminate].
  reflexivity.
Qed.

(** C5: for a non-nil [*UUIDv8] whose clock sequence is a uint16 and whose
    node holds bytes, [MarshalJSON] fails exactly when the node is not 6
    bytes long, the timestamp is 0 or the clock sequence exceeds 4095; when
    it succeeds its output is the JSON string of [ToString u], that is
    [ToString u] between double quotes. *)
Theorem C5_MarshalJSON_gate (u : UUIDv8) :
  0 <= ClockSeq u -> Forall is_byte (Node u) ->
  ((exists e, MarshalJSON (Some u) = Err e) <->
   (List.length (Node u) <> 6%nat \/ Timestamp u = 0 \/ ClockSeq u > 4095)) /\
  (forall out, MarshalJSON (Some u) = Ok out ->
   out = json_Marshal_string (ToString u) /\
   out = String dquote (ToString u ++ String dquote EmptyString)).
Proof.
  intros Hc Hb.
  destruct (Nat.eq_dec (List.length (Node u)) 6) as [Hn|Hn];
    [destruct (Z.eqb_spec (Timestamp u) 0) as [Ht|Ht];
     [|destruct (Z.gtb_spec (ClockSeq u) 4095) as [Hg|Hg]] |].
  - (* timestamp 0 *)
    unfold MarshalJSON. rewrite (proj2 (Z.eqb_eq _ _) Ht), orb_true_r. cbn [orb].
    split; [split; [intros _; right; left; exact Ht | intros _; eexists; reflexivity] |].
    intros out E; discriminate E.
  - (* clock sequence above 4095 *)
    unfold MarshalJSON.
    replace (ClockSeq u >? 4095) with true by (symmetry; apply Z.gtb_lt; lia).
    rewrite orb_true_r.
    split; [split; [intros _; right; right; lia | intros _; eexists; reflexivity] |].
    intros out E; discriminate E.
  - (* all fields pass the gate *)
    assert (Hv : IsValidUUIDv8 (ToString u) = true).
    { rewrite ToString_layout by exact Hn.
      apply IsValid_encoded; [lia | exact Hn | exact Hb | reflexivity]. }
    assert (Hj : json_Marshal_string (ToString u)
                 = String dquote (ToString u ++ String dquote EmptyString)).
    { unfold json_Marshal_string. rewrite ToString_layout by exact Hn.
      rewrite json_escape_formatUUID; [reflexivity|].
      pose proof (encodeUUID_layout (Timestamp u) (ClockSeq u) (Node u) TimestampBits48 Hn eq_refl) as E.
      exact (proj1 (encoded_buffer_bytes _ _ _ _ _ Hb E)). }
    unfold MarshalJSON.
    replace (Nat.eqb (List.length (Node u)) 6) with true by (symmetry; apply Nat.eqb_eq; exact Hn).
    replace (Timestamp u =? 0) with false by (symmetry; apply Z.eqb_neq; exact Ht).
    replace (ClockSeq u >? 4095) with false by (symmetry; rewrite Z.gtb_ltb; apply Z.ltb_ge; lia).
    cbn [negb orb]. rewrite Hv. cbn [negb].
    split.
    + split; [intros [e E]; discriminate E | intros [H|[H|H]]; lia].
    + intros out E. injection E as <-. split; [reflexivity | exact Hj].
  - (* node not 6 bytes long *)
    unfold MarshalJSON.
    replace (Nat.eqb (List.length (Node u)) 6) with false by (symmetry; apply Nat.eqb_neq; exact Hn).
    cbn [negb orb].
    split; [split; [intros _; left; exact Hn | intros _; eexists; reflexivity] |].
    intros out E; discriminate E.
Qed.

Lemma C5_MarshalJSON_gate_witness :
  (0 <= ClockSeq (mkUUIDv8 123456789 2048 [1; 2; 3; 4; 5; 6]) /\
   Forall is_byte (Node (mkUUIDv8 123456789 2048 [1; 2; 3; 4; 5; 6]))) /\
  MarshalJSON (Some (mkUUIDv8 123456789 2048 [1; 2; 3; 4; 5; 6]))
    = Ok (String dquote ("0000075b-cd15-8880-0102-030405060000" ++ String dquote EmptyString)).
Proof.
  assert (Hb : Forall is_byte [1; 2; 3; 4; 5; 6])
    by (repeat apply Forall_cons; try apply Forall_nil; unfold is_byte; lia).
  split; [split; [cbn; lia | exact Hb] |].
  pose proof (C5_MarshalJSON_gate (mkUUIDv8 123456789 2048 [1; 2; 3; 4; 5; 6])) as G.
  destruct G as [_ G]; [cbn; lia | exact Hb |].
  destruct (MarshalJSON (Some (mkUUIDv8 123456789 2048 [1; 2; 3; 4; 5; 6]))) as [out|e] eqn:E.
  - destruct (G out eq_refl) as [_ ->]. reflexivity.
  - discriminate E.
Defined.

(* ------------------------------------------------------------------ *)
(** * C6: the encoder's preconditions *)

Lemma supported_width_iff (timestampBits : Z) :
  supported_width timestampBits = true <->
  timestampBits = 32 \/ timestampBits = 48 \/ timestampBits = 60.
Proof.
  unfold supported_width, TimestampBits32, TimestampBits48, TimestampBits60.
  rewrite !orb_true_iff, !Z.eqb_eq. tauto.
Qed.

(** C6: [NewWithParams] fails with the node-length error exactly when the
    node is not 6 bytes long, otherwise with the width error exactly when
    the width is not 32, 48 or 60; in every other case it returns a
    non-empty string. *)
Theorem C6_NewWithParams_errors (timestamp clockSeq : Z) (node : list Z) (timestampBits : Z) :
  ((exists e, NewWithParams timestamp clockSeq node timestampBits = Err e) <->
   (List.length node <> 6%nat \/
    ~ (timestampBits = 32 \/ timestampBits = 48 \/ timestampBits = 60))) /\
  (List.length node <> 6%nat ->
   NewWithParams timestamp clockSeq node timestampBits = Err (ErrNodeLength (List.length node))) /\
  (List.length node = 6%nat -> ~ (timestampBits = 32 \/ timestampBits = 48 \/ timestampBits = 60) ->
   NewWithParams timestamp clockSeq node timestampBits = Err (ErrTimestampBits timestampBits)) /\
  (List.length node = 6%nat -> (timestampBits = 32 \/ timestampBits = 48 \/ timestampBits = 60) ->
   exists s, NewWithParams timestamp clockSeq node timestampBits = Ok s /\ s <> EmptyString).
Proof.
  assert (Hnode : List.length node <> 6%nat ->
          NewWithParams timestamp clockSeq node timestampBits = Err (ErrNodeLength (List.length node))).
  { intros Hn. unfold NewWithParams. rewrite (proj1 (encodeUUID_error _ _ _ _) Hn). reflexivity. }
  assert (Hwidth : List.length node = 6%nat ->
          ~ (timestampBits = 32 \/ timestampBits = 48 \/ timestampBits = 60) ->
          NewWithParams timestamp clockSeq node timestampBits = Err (ErrTimestampBits timestampBits)).
  { intros Hn Hw. unfold NewWithParams.
    rewrite (proj2 (encodeUUID_error _ _ _ _) Hn); [reflexivity|].
    apply not_true_iff_false. rewrite supported_width_iff. exact Hw. }
  assert (Hok : List.length node = 6%nat ->
          (timestampBits = 32 \/ timestampBits = 48 \/ timestampBits = 60) ->
          exists s, NewWithParams timestamp clockSeq node timestampBits = Ok s /\ s <> EmptyString).
  { intros Hn Hw. apply supported_width_iff in Hw.
    unfold NewWithParams. rewrite encodeUUID_layout by assumption.
    eexists. split; [reflexivity|].
    intros Hs. apply (f_equal String.length) in Hs.
    rewrite formatUUID_length in Hs; [discriminate|].
    rewrite !length_app, (proj2 (ts_bytes_bytes _ _)), Hn. reflexivity. }
  split; [|split; [exact Hnode | split; [exact Hwidth | exact Hok]]].
  split.
  - intros [e E].
    destruct (Nat.eq_dec (List.length node) 6) as [Hn|Hn]; [|left; exact Hn].
    right. intros Hw. destruct (Hok Hn Hw) as [s [E' _]]. rewrite E' in E. discriminate E.
  - intros [Hn | Hw].
    + eexists. exact (Hnode Hn).
    + destruct (Nat.eq_dec (List.length node) 6) as [Hn|Hn].
      * eexists. exact (Hwidth Hn Hw).
      * eexists. exact (Hnode Hn).
Qed.

(* ------------------------------------------------------------------ *)
(** * Hex decoding *)

(** A property of every character follows from checking the 256 of them. *)
Lemma ascii_check (f : ascii -> bool) :
  forallb (fun n => f (ascii_of_nat n)) (seq 0 256) = true -> forall c, f c = true.
Proof.
  intros H c. rewrite <- (ascii_nat_embedding c).
  rewrite forallb_forall in H. apply H, in_seq.
  pose proof (nat_ascii_bounded c). lia.
Qed.

Lemma fromHexChar_range (c : ascii) (a : Z) : fromHexChar c = Some a -> 0 <= a < 16.
Proof.
  intros E.
  pose proof (ascii_check (fun c => match fromHexChar c with
                                     | Some a => (0 <=? a) && (a <? 16)
                                     | None => true end)
                ltac:(vm_compute; reflexivity) c) as H.
  cbn beta in H. rewrite E in H. apply andb_prop in H as [H1 H2].
  apply Z.leb_le in H1. apply Z.ltb_lt in H2. lia.
Qed.

Lemma nibbles_byte (a c : Z) : 0 <= a < 16 -> 0 <= c < 16 ->
  Z.lor (byte_of (Z.shiftl a 4)) c = a * 16 + c.
Proof.
  intros Ha Hc.
  pose proof (byte_pair_check (fun a c => negb ((a <? 16) && (c <? 16))
                                          || (Z.lor (byte_of (Z.shiftl a 4)) c =? a * 16 + c))
                ltac:(vm_compute; reflexivity) a c) as H.
  cbn beta in H.
  replace (a <? 16) with true in H by (symmetry; apply Z.ltb_lt; lia).
  replace (c <? 16) with true in H by (symmetry; apply Z.ltb_lt; lia).
  cbn in H. apply Z.eqb_eq, H; unfold is_byte; lia.
Qed.

(** Every character is a hexadecimal digit (either case). *)
Fixpoint all_hex (s : string) : bool :=
  match s with
  | EmptyString => true
  | String c s' => match fromHexChar c with Some _ => all_hex s' | None => false end
  end.

(** The value of a hexadecimal digit, and the bytes denoted by pairs of digits. *)
Definition hex_val (c : ascii) : Z := match fromHexChar c with Some v => v | None => 0 end.

Fixpoint hex_value (s : string) : list Z :=
  match s with
  | String p (String q rest) => (hex_val p * 16 + hex_val q) :: hex_value rest
  | _ => []
  end.

Lemma hex_decode_pairs (n : nat) : forall t, (String.length t <= n)%nat ->
  (forall r, hex_decode t = Ok r -> String.length t = (2 * List.length r)%nat /\ Forall is_byte r) /\
  (all_hex t = true -> Nat.even (String.length t) = true -> hex_decode t = Ok (hex_value t)) /\
  (all_hex t = false -> exists c, hex_decode t = Err (ErrHexInvalidByte c) /\ fromHexChar c = None).
Proof.
  induction n as [|n IH]; intros t Hlen.
  - destruct t; [|cbn in Hlen; lia].
    split; [intros r E; injection E as <-; split; [reflexivity | constructor] |].
    split; [reflexivity | discriminate].
  - destruct t as [|p [|q rest]].
    + split; [intros r E; injection E as <-; split; [reflexivity | constructor] |].
      split; [reflexivity | discriminate].
    + cbn [hex_decode all_hex String.length].
      destruct (fromHexChar p) eqn:Ep.
      * split; [intros r E; discriminate E |]. split; [discriminate | ].
        destruct (all_hex EmptyString); discriminate.
      * split; [intros r E; discriminate E |]. split; [discriminate |].
        intros _. exists p. split; [reflexivity | exact Ep].
    + assert (Hrest : (String.length rest <= n)%nat) by (cbn in Hlen; lia).
      destruct (IH rest Hrest) as (IH1 & IH2 & IH3).
      cbn [hex_decode all_hex String.length].
      destruct (fromHexChar p) as [a|] eqn:Ep;
        [destruct (fromHexChar q) as [c|] eqn:Eq|].
      * pose proof (fromHexChar_range p a Ep) as Ha.
        pose proof (fromHexChar_range q c Eq) as Hc.
        rewrite nibbles_byte by assumption.
        split; [|split].
        -- intros r E. destruct (hex_decode rest) as [r'|e] eqn:Er; [|discriminate E].
           injection E as <-. destruct (IH1 r' eq_refl) as [L B].
           split; [cbn [List.length]; lia|].
           constructor; [unfold is_byte; lia | exact B].
        -- intros Hh Hev. rewrite (IH2 Hh Hev). cbn [hex_value]. unfold hex_val. rewrite Ep, Eq. reflexivity.
        -- intros Hh. destruct (IH3 Hh) as [c' [E' Hc']]. rewrite E'. eauto.
      * split; [intros r E; discriminate E |]. split; [discriminate |].
        intros _. exists q. split; [reflexivity | exact Eq].
      * split; [intros r E; discriminate E |]. split; [discriminate |].
        intros _. exists p. split; [reflexivity | exact Ep].
Qed.

Lemma length_nuls (n : nat) : String.length (nuls n) = n.
Proof. induction n as [|n IH]; cbn; [reflexivity | rewrite IH; reflexivity]. Qed.

Lemma Ok_inj {A : Type} (x y : A) : Ok x = Ok y -> x = y.
Proof. intros E. congruence. Qed.

Lemma strip_dashes_length (s r : string) : strip_dashes s = Ok r -> String.length r = 32%nat.
Proof.
  unfold strip_dashes. intros E. lazy zeta in E.
  destruct (Nat.leb (String.length (drop_dashes s)) 32) eqn:Hle; [|discriminate E].
  apply Nat.leb_le in Hle. apply Ok_inj in E. subst r.
  rewrite str_length_app, length_nuls. lia.
Qed.

(** Every buffer [parseUUID] returns holds 16 bytes. *)
Lemma parseUUID_shape (s : string) (b : list Z) :
  parseUUID s = Ok b -> List.length b = 16%nat /\ Forall is_byte b.
Proof.
  unfold parseUUID, hex_DecodeString. intros E.
  destruct (Nat.eqb_spec (String.length s) 32) as [H32|H32].
  - destruct (proj1 (hex_decode_pairs (String.length s) s (le_n _)) b E) as [L B].
    split; [lia | exact B].
  - destruct (Nat.eqb (String.length s) 36); [|discriminate E].
    destruct (_ || _); [discriminate E|].
    destruct (strip_dashes s) as [r|e] eqn:Es; [|discriminate E].
    pose proof (strip_dashes_length s r Es) as Lr.
    destruct (proj1 (hex_decode_pairs (String.length r) r (le_n _)) b E) as [L B].
    split; [lia | exact B].
Qed.

(* ------------------------------------------------------------------ *)
(** * C7: the fixed-width decoder *)

(** The big-endian integer denoted by a list of bytes. *)
Definition be_value (l : list Z) : Z := fold_left (fun acc x => acc * 256 + x) l 0.

Lemma lor_shiftl8_add (x y : Z) : 0 <= y < 256 -> Z.lor (Z.shiftl x 8) y = x * 256 + y.
Proof.
  intros Hy.
  assert (Hd : Z.land (Z.shiftl x 8) y = 0).
  { apply Z.bits_inj'. intros n Hn. rewrite Z.land_spec, Z.testbit_0_l.
    destruct (Z.ltb_spec n 8).
    - rewrite Z.shiftl_spec_low by lia. reflexivity.
    - rewrite <- (Z.mod_small y (2 ^ 8)) by (cbn; lia).
      rewrite (Z.mod_pow2_bits_high y 8 n) by lia. apply andb_false_r. }
  rewrite <- Z.lxor_lor by exact Hd. rewrite <- Z.add_nocarry_lxor by exact Hd.
  rewrite Z.shiftl_mul_pow2 by lia. reflexivity.
Qed.

Lemma decodeTimestamp_be (l : list Z) : List.length l = 6%nat -> Forall is_byte l ->
  decodeTimestamp l = be_value l.
Proof.
  intros Hl Hb.
  do 6 (destruct l as [|? l]; [discriminate|]). destruct l; [|discriminate].
  repeat match goal with H : Forall _ (_ :: _) |- _ => inversion H; subst; clear H end.
  unfold is_byte in *. unfold decodeTimestamp, be_value. cbn [nth fold_left].
  match goal with
  | |- _ = (((((0 * 256 + ?b0) * 256 + ?b1) * 256 + ?b2) * 256 + ?b3) * 256 + ?b4) * 256 + ?b5 =>
      transitivity (Z.lor (Z.shiftl (Z.lor (Z.shiftl (Z.lor (Z.shiftl (Z.lor (Z.shiftl
                      (Z.lor (Z.shiftl b0 8) b1) 8) b2) 8) b3) 8) b4) 8) b5)
  end.
  - rewrite !Z.shiftl_lor, !Z.shiftl_shiftl by lia. reflexivity.
  - rewrite !lor_shiftl8_add by lia. lia.
Qed.

Lemma Forall_slice (P : Z -> Prop) (l : list Z) (i j : nat) :
  Forall P l -> Forall P (slice l i j).
Proof.
  intros H. unfold slice.
  assert (Hs : Forall P (skipn i l)).
  { revert i. induction H as [|x l Hx Hl IH]; intros [|i]; cbn; auto. }
  remember (skipn i l) as m eqn:Em. clear Em. revert Hs. generalize (j - i)%nat as k.
  intros k Hs. revert k. induction Hs as [|x m Hx Hm IH]; intros [|k]; cbn; auto.
Qed.

(** C7: for every buffer [b] that [parseUUID] returns, [b] has 16 bytes and
    [FromString] succeeds with the big-endian integer of bytes 0-5 as the
    timestamp, [(b[6] & 0x0F) << 8 | b[7]] as the clock sequence and bytes
    8-13 as the node; the decoding step has no failure case. *)
Theorem C7_fixed_width_decode (s : string) (b : list Z) :
  parseUUID s = Ok b ->
  List.length b = 16%nat /\
  FromString s = Ok (mkUUIDv8 (be_value (slice b 0 6))
                              (Z.lor (Z.shiftl (Z.land (nth 6 b 0) 15) 8) (nth 7 b 0))
                              (slice b 8 14)).
Proof.
  intros Hp. destruct (parseUUID_shape s b Hp) as [Hl Hb].
  split; [exact Hl|].
  rewrite (FromString_parsed s b Hp Hl).
  rewrite decodeTimestamp_be; [reflexivity | apply length_slice; lia |].
  apply Forall_slice, Hb.
Qed.

Lemma C7_fixed_width_decode_witness :
  parseUUID "9a3d4049-0e2c-8080-0102-030405060000"
    = Ok [154; 61; 64; 73; 14; 44; 128; 128; 1; 2; 3; 4; 5; 6; 0; 0] /\
  FromString "9a3d4049-0e2c-8080-0102-030405060000"
    = Ok (mkUUIDv8 (be_value [154; 61; 64; 73; 14; 44]) 128 [1; 2; 3; 4; 5; 6]).
Proof.
  split; [reflexivity|].
  exact (proj2 (C7_fixed_width_decode "9a3d4049-0e2c-8080-0102-030405060000"
                  [154; 61; 64; 73; 14; 44; 128; 128; 1; 2; 3; 4; 5; 6; 0; 0] eq_refl)).
Defined.

(* ------------------------------------------------------------------ *)
(** * C10: what every parsed value satisfies *)

(** C10: whenever [FromString] succeeds, or [FromStringOrNil] returns a
    non-nil value, the clock sequence is at most 4095 and the node is
    6 bytes long. *)
Theorem C10_parsed_invariant (s : string) :
  (forall u, FromString s = Ok u -> 0 <= ClockSeq u <= 4095 /\ List.length (Node u) = 6%nat) /\
  (forall u, FromStringOrNil s = Some u -> 0 <= ClockSeq u <= 4095 /\ List.length (Node u) = 6%nat).
Proof.
  assert (Hfields : forall b, parseUUID s = Ok b ->
            0 <= Z.lor (Z.shiftl (Z.land (nth 6 b 0) 15) 8) (nth 7 b 0) <= 4095 /\
            List.length (slice b 8 14) = 6%nat).
  { intros b Hp. destruct (parseUUID_shape s b Hp) as [Hl Hb].
    split; [|apply length_slice; lia].
    rewrite Forall_forall in Hb.
    apply clockSeq_decoded_bound; apply Hb, nth_In; lia. }
  split.
  - intros u E. unfold FromString in E.
    destruct (parseUUID s) as [b|e] eqn:Hp; [|discriminate E].
    injection E as <-. exact (Hfields b eq_refl).
  - intros u E. unfold FromStringOrNil in E.
    destruct (parseUUID s) as [b|e] eqn:Hp; [|discriminate E].
    destruct (isAllZeroUUID b); [discriminate E|].
    injection E as <-. exact (Hfields b eq_refl).
Qed.

(* ------------------------------------------------------------------ *)
(** * C9: the canonical text form *)

(** C9: for every 16-byte buffer, [formatUUID] returns a 36-character
    string matching [^[0-9a-f]{8}-[0-9a-f]{4}-[0-9a-f]{4}-[0-9a-f]{4}-[0-9a-f]{12}$],
    namely the lower-case hex of the byte groups [0:4], [4:6], [6:8],
    [8:10] and [10:16] joined by dashes (the widths of
    [%08x-%04x-%04x-%04x-%012x] add no padding). *)
Theorem C9_canonical_form (b : list Z) :
  List.length b = 16%nat ->
  String.length (formatUUID b) = 36%nat /\ canonical_form (formatUUID b) = true /\
  formatUUID b =
  (hex_of_bytes (slice b 0 4) ++ "-" ++ hex_of_bytes (slice b 4 6) ++ "-" ++
   hex_of_bytes (slice b 6 8) ++ "-" ++ hex_of_bytes (slice b 8 10) ++ "-" ++
   hex_of_bytes (slice b 10 16))%string.
Proof.
  intros Hl. split; [|split].
  - apply formatUUID_length, Hl.
  - apply formatUUID_canonical, Hl.
  - apply formatUUID_groups, Hl.
Qed.

Lemma C9_canonical_form_witness :
  List.length [255; 0; 16; 171; 8; 128; 1; 2; 3; 4; 5; 6; 7; 8; 9; 10] = 16%nat /\
  formatUUID [255; 0; 16; 171; 8; 128; 1; 2; 3; 4; 5; 6; 7; 8; 9; 10]
    = "ff0010ab-0880-0102-0304-05060708090a" /\
  canonical_form "ff0010ab-0880-0102-0304-05060708090a" = true.
Proof.
  split; [reflexivity | split; [reflexivity|]].
  exact (proj1 (proj2 (C9_canonical_form [255; 0; 16; 171; 8; 128; 1; 2; 3; 4; 5; 6; 7; 8; 9; 10]
                         eq_refl))).
Defined.

(* ------------------------------------------------------------------ *)
(** * Parse: shapes, payload and hex errors *)

Definition separator_positions : list nat := [8; 13; 18; 23]%nat.

(** Dashes at positions 8, 13, 18 and 23. *)
Definition dashes_at_separators (s : string) : Prop :=
  char_at s 8 = Some "-"%char /\ char_at s 13 = Some "-"%char /\
  char_at s 18 = Some "-"%char /\ char_at s 23 = Some "-"%char.

(** The two accepted shapes: 32 characters, or 36 with the four dashes. *)
Definition well_shaped (s : string) : Prop :=
  String.length s = 32%nat \/ (String.length s = 36%nat /\ dashes_at_separators s).

(** [s] without the characters at the positions [ps] (counted from [i]). *)
Fixpoint drop_positions (ps : list nat) (i : nat) (s : string) : string :=
  match s with
  | EmptyString => EmptyString
  | String c s' =>
      if existsb (Nat.eqb i) ps then drop_positions ps (S i) s'
      else String c (drop_positions ps (S i) s')
  end.

(** The 32 characters that carry the hex digits of a well-shaped input. *)
Definition hex_payload (s : string) : string :=
  if Nat.eqb (String.length s) 36 then drop_positions separator_positions 0 s else s.

Lemma is_dash_iff (o : option ascii) : is_dash o = true <-> o = Some "-"%char.
Proof.
  destruct o as [c|]; cbn; [|split; discriminate].
  rewrite Ascii.eqb_eq. split; [intros ->; reflexivity | intros E; injection E as ->; reflexivity].
Qed.

Lemma drop_dashes_positions (ps : list nat) : forall s i,
  (forall k, In (i + k)%nat ps -> String.get k s = Some "-"%char) ->
  drop_dashes s = drop_dashes (drop_positions ps i s).
Proof.
  induction s as [|c s IH]; intros i H; [reflexivity|].
  cbn [drop_positions].
  assert (H' : forall k, In (S i + k)%nat ps -> String.get k s = Some "-"%char).
  { intros k Hk. apply (H (S k)). replace (i + S k)%nat with (S i + k)%nat by lia. exact Hk. }
  destruct (existsb (Nat.eqb i) ps) eqn:Hi.
  - apply existsb_exists in Hi as [p [Hp Ep]]. apply Nat.eqb_eq in Ep. subst p.
    specialize (H 0%nat). rewrite Nat.add_0_r in H. cbn in H.
    injection (H Hp) as ->. cbn [drop_dashes Ascii.eqb]. apply IH, H'.
  - cbn [drop_dashes]. rewrite (IH (S i) H'). reflexivity.
Qed.

Lemma hex_payload_length (s : string) : String.length s = 36%nat ->
  String.length (drop_positions separator_positions 0 s) = 32%nat.
Proof.
  intros H.
  do 36 (destruct s as [|? s]; [discriminate|]). destruct s; [|discriminate].
  reflexivity.
Qed.

Lemma fromHexChar_dash : fromHexChar "-" = None.
Proof. reflexivity. Qed.

Lemma fromHexChar_nul : fromHexChar zero = None.
Proof. reflexivity. Qed.

Lemma drop_dashes_all_hex (p : string) : all_hex p = true -> drop_dashes p = p.
Proof.
  induction p as [|c p IH]; [reflexivity|].
  cbn [all_hex drop_dashes]. destruct (fromHexChar c) eqn:Ec; [|discriminate].
  intros Hh. destruct (Ascii.eqb_spec c "-") as [->|_]; [discriminate Ec|].
  rewrite IH by exact Hh. reflexivity.
Qed.

Lemma drop_dashes_same_or_shorter (p : string) :
  drop_dashes p = p \/ (String.length (drop_dashes p) < String.length p)%nat.
Proof.
  induction p as [|c p IH]; [left; reflexivity|].
  cbn [drop_dashes]. destruct (Ascii.eqb c "-").
  - right. cbn [String.length]. destruct IH as [-> | H]; lia.
  - destruct IH as [-> | H]; [left; reflexivity | right; cbn [String.length]; lia].
Qed.

Lemma all_hex_app (a c : string) : all_hex (a ++ c) = all_hex a && all_hex c.
Proof.
  induction a as [|x a IH]; [reflexivity|].
  cbn [String.append all_hex]. destruct (fromHexChar x); [exact IH | reflexivity].
Qed.

(** The buffer the dash-removal loop fills holds a non-hex character exactly
    when the 32 payload characters do. *)
Lemma strip_all_hex (p : string) : String.length p = 32%nat ->
  all_hex (drop_dashes p ++ nuls (32 - String.length (drop_dashes p))) = all_hex p /\
  (all_hex p = true -> (drop_dashes p ++ nuls (32 - String.length (drop_dashes p)))%string = p).
Proof.
  intros Hl.
  destruct (all_hex p) eqn:Hp.
  - rewrite (drop_dashes_all_hex p Hp), Hl. cbn [Nat.sub nuls].
    rewrite str_app_empty_r. split; [exact Hp | reflexivity].
  - split; [|discriminate].
    rewrite all_hex_app.
    destruct (drop_dashes_same_or_shorter p) as [E | Hlt].
    + rewrite E, Hp. reflexivity.
    + destruct (32 - String.length (drop_dashes p))%nat as [|k] eqn:Ek; [lia|].
      cbn [nuls all_hex]. rewrite fromHexChar_nul. apply andb_false_r.
Qed.

Lemma drop_dashes_length_le (p : string) :
  (String.length (drop_dashes p) <= String.length p)%nat.
Proof. destruct (drop_dashes_same_or_shorter p) as [-> | H]; lia. Qed.

(** On a well-shaped input, [parseUUID] hex-decodes a 32-character buffer that
    holds a non-hex character exactly when the payload does. *)
Lemma parse_well_shaped (s : string) : well_shaped s ->
  exists r, parseUUID s = hex_DecodeString r /\ String.length r = 32%nat /\
    all_hex r = all_hex (hex_payload s) /\
    (all_hex (hex_payload s) = true -> r = hex_payload s).
Proof.
  intros [H32 | [H36 (D8 & D13 & D18 & D23)]].
  - exists s. unfold parseUUID, hex_payload. rewrite H32. cbn [Nat.eqb].
    split; [reflexivity | split; [reflexivity | split; reflexivity]].
  - set (p := drop_positions separator_positions 0 s).
    assert (Hp : String.length p = 32%nat) by (apply hex_payload_length, H36).
    assert (Ed : drop_dashes s = drop_dashes p).
    { apply drop_dashes_positions. intros k Hk. cbn in Hk.
      destruct Hk as [<- | [<- | [<- | [<- | []]]]]; assumption. }
    exists (drop_dashes p ++ nuls (32 - String.length (drop_dashes p)))%string.
    unfold parseUUID, hex_payload. rewrite H36. cbn [Nat.eqb].
    unfold char_at in D8, D13, D18, D23. unfold char_at.
    rewrite D8, D13, D18, D23. cbn [is_dash Ascii.eqb Bool.eqb negb orb].
    unfold strip_dashes. rewrite Ed.
    pose proof (drop_dashes_length_le p) as Hle.
    rewrite (proj2 (Nat.leb_le (String.length (drop_dashes p)) 32) ltac:(lia)).
    destruct (strip_all_hex p Hp) as [A B].
    split; [reflexivity|]. split.
    + rewrite str_length_app, length_nuls. lia.
    + fold p. split; [exact A | exact B].
Qed.

(* Case mapping of ASCII characters, as [strings.ToUpper]/[strings.ToLower]
   do on ASCII input. *)
Definition ascii_upcase (c : ascii) : ascii :=
  let n := nat_of_ascii c in
  if Nat.leb 97 n && Nat.leb n 122 then ascii_of_nat (n - 32) else c.

Definition ascii_downcase (c : ascii) : ascii :=
  let n := nat_of_ascii c in
  if Nat.leb 65 n && Nat.leb n 90 then ascii_of_nat (n + 32) else c.

Fixpoint str_map (f : ascii -> ascii) (s : string) : string :=
  match s with
  | EmptyString => EmptyString
  | String c s' => String (f c) (str_map f s')
  end.

Definition str_upcase (s : string) : string := str_map ascii_upcase s.
Definition str_downcase (s : string) : string := str_map ascii_downcase s.

(** A result with its hex-digit error (if any) renamed through [f]. *)
Definition map_hex_err {A : Type} (f : ascii -> ascii) (r : result A) : result A :=
  match r with
  | Err (ErrHexInvalidByte c) => Err (ErrHexInvalidByte (f c))
  | _ => r
  end.

Definition opt_Z_eqb (a b : option Z) : bool :=
  match a, b with
  | Some x, Some y => Z.eqb x y
  | None, None => true
  | _, _ => false
  end.

Lemma opt_Z_eqb_eq (a b : option Z) : opt_Z_eqb a b = true -> a = b.
Proof.
  destruct a, b; cbn; try discriminate; [|reflexivity].
  intros E. apply Z.eqb_eq in E. subst. reflexivity.
Qed.

Section CaseMap.
Variable f : ascii -> ascii.
Hypothesis f_dash : forall c, Ascii.eqb (f c) "-" = Ascii.eqb c "-".
Hypothesis f_hex : forall c, fromHexChar (f c) = fromHexChar c.
Hypothesis f_nul : f zero = zero.

Lemma str_map_length (s : string) : String.length (str_map f s) = String.length s.
Proof. induction s as [|c s IH]; cbn; [reflexivity | rewrite IH; reflexivity]. Qed.

Lemma str_map_get (s : string) : forall i, String.get i (str_map f s) = option_map f (String.get i s).
Proof. induction s as [|c s IH]; intros [|i]; cbn; auto. Qed.

Lemma is_dash_map (o : option ascii) : is_dash (option_map f o) = is_dash o.
Proof. destruct o; cbn; [apply f_dash | reflexivity]. Qed.

Lemma str_map_app (a c : string) : str_map f (a ++ c) = (str_map f a ++ str_map f c)%string.
Proof. induction a as [|x a IH]; cbn; [reflexivity | rewrite IH; reflexivity]. Qed.

Lemma str_map_nuls (n : nat) : str_map f (nuls n) = nuls n.
Proof. induction n as [|n IH]; cbn; [reflexivity | rewrite IH, f_nul; reflexivity]. Qed.

Lemma drop_dashes_map (s : string) : drop_dashes (str_map f s) = str_map f (drop_dashes s).
Proof.
  induction s as [|c s IH]; [reflexivity|]. cbn [str_map drop_dashes].
  rewrite f_dash. destruct (Ascii.eqb c "-"); [exact IH | cbn; rewrite IH; reflexivity].
Qed.

Lemma hex_decode_map (n : nat) : forall t, (String.length t <= n)%nat ->
  hex_decode (str_map f t) = map_hex_err f (hex_decode t).
Proof.
  induction n as [|n IH]; intros t Hl.
  - destruct t; [reflexivity | cbn in Hl; lia].
  - destruct t as [|p [|q rest]]; [reflexivity | |].
    + cbn [str_map hex_decode]. rewrite f_hex. destruct (fromHexChar p); reflexivity.
    + cbn [str_map hex_decode]. rewrite !f_hex.
      destruct (fromHexChar p); [|reflexivity]. destruct (fromHexChar q); [|reflexivity].
      rewrite (IH rest) by (cbn in Hl; lia).
      destruct (hex_decode rest) as [r|[]]; reflexivity.
Qed.

Lemma parseUUID_map (s : string) : parseUUID (str_map f s) = map_hex_err f (parseUUID s).
Proof.
  unfold parseUUID, hex_DecodeString, char_at.
  rewrite str_map_length, !str_map_get, !is_dash_map.
  destruct (Nat.eqb (String.length s) 32).
  { apply (hex_decode_map (String.length s)). lia. }
  destruct (Nat.eqb (String.length s) 36); [|reflexivity].
  destruct (_ || _); [reflexivity|].
  unfold strip_dashes. rewrite drop_dashes_map, str_map_length.
  destruct (Nat.leb (String.length (drop_dashes s)) 32); [|reflexivity].
  set (k := (32 - String.length (drop_dashes s))%nat).
  replace (str_map f (drop_dashes s) ++ nuls k)%string with (str_map f (drop_dashes s ++ nuls k))
    by (rewrite str_map_app, str_map_nuls; reflexivity).
  apply (hex_decode_map (String.length (drop_dashes s ++ nuls k))). lia.
Qed.

Lemma parseUUID_map_Ok (s : string) (b : list Z) :
  parseUUID (str_map f s) = Ok b <-> parseUUID s = Ok b.
Proof.
  rewrite parseUUID_map. destruct (parseUUID s) as [r|[]]; cbn; split; congruence.
Qed.

End CaseMap.

Lemma upcase_dash (c : ascii) : Ascii.eqb (ascii_upcase c) "-" = Ascii.eqb c "-".
Proof.
  apply Bool.eqb_prop.
  apply (ascii_check (fun c => Bool.eqb (Ascii.eqb (ascii_upcase c) "-") (Ascii.eqb c "-"))).
  vm_compute. reflexivity.
Qed.

Lemma downcase_dash (c : ascii) : Ascii.eqb (ascii_downcase c) "-" = Ascii.eqb c "-".
Proof.
  apply Bool.eqb_prop.
  apply (ascii_check (fun c => Bool.eqb (Ascii.eqb (ascii_downcase c) "-") (Ascii.eqb c "-"))).
  vm_compute. reflexivity.
Qed.

Lemma upcase_hex (c : ascii) : fromHexChar (ascii_upcase c) = fromHexChar c.
Proof.
  apply opt_Z_eqb_eq.
  apply (ascii_check (fun c => opt_Z_eqb (fromHexChar (ascii_upcase c)) (fromHexChar c))).
  vm_compute. reflexivity.
Qed.

Lemma downcase_hex (c : ascii) : fromHexChar (ascii_downcase c) = fromHexChar c.
Proof.
  apply opt_Z_eqb_eq.
  apply (ascii_check (fun c => opt_Z_eqb (fromHexChar (ascii_downcase c)) (fromHexChar c))).
  vm_compute. reflexivity.
Qed.

(** C8: [parseUUID] rejects a length other than 32 and 36 with
    [ErrUUIDLength]; a 36-character input without dashes at 8, 13, 18 and 23
    with [ErrUUIDFormat]; otherwise it hex-decodes the 32 payload characters
    into 16 bytes, failing with an invalid-byte error, on a character that is
    not a hex digit, exactly when the payload holds one; and upper- or
    lower-casing the input does not change what it accepts. *)
Theorem C8_parse_taxonomy (s : string) :
  (String.length s <> 32%nat -> String.length s <> 36%nat -> parseUUID s = Err ErrUUIDLength) /\
  (String.length s = 36%nat -> ~ dashes_at_separators s -> parseUUID s = Err ErrUUIDFormat) /\
  (well_shaped s -> all_hex (hex_payload s) = true ->
     parseUUID s = Ok (hex_value (hex_payload s)) /\
     List.length (hex_value (hex_payload s)) = 16%nat) /\
  (well_shaped s -> all_hex (hex_payload s) = false ->
     exists c, parseUUID s = Err (ErrHexInvalidByte c) /\ fromHexChar c = None) /\
  (forall b, (parseUUID (str_upcase s) = Ok b <-> parseUUID s = Ok b) /\
             (parseUUID (str_downcase s) = Ok b <-> parseUUID s = Ok b)).
Proof.
  split; [|split; [|split; [|split]]].
  - intros H32 H36. unfold parseUUID.
    rewrite (proj2 (Nat.eqb_neq _ _) H32), (proj2 (Nat.eqb_neq _ _) H36). reflexivity.
  - intros H36 Hd. unfold parseUUID. rewrite H36. cbn [Nat.eqb].
    destruct (negb (is_dash (char_at s 8)) || negb (is_dash (char_at s 13))
              || negb (is_dash (char_at s 18)) || negb (is_dash (char_at s 23))) eqn:E;
      [reflexivity|].
    exfalso. apply Hd.
    apply orb_false_iff in E as [E E23]. apply orb_false_iff in E as [E E18].
    apply orb_false_iff in E as [E8 E13].
    apply negb_false_iff, is_dash_iff in E8, E13, E18, E23.
    unfold dashes_at_separators. auto.
  - intros Hw Hh. destruct (parse_well_shaped s Hw) as (r & Ep & Hl & Ha & Hr).
    rewrite (Hr Hh) in Ep, Hl. rewrite Ep. unfold hex_DecodeString.
    destruct (hex_decode_pairs _ (hex_payload s) (le_n _)) as (P1 & P2 & _).
    rewrite Hl in P2. rewrite (P2 Hh eq_refl).
    split; [reflexivity|].
    destruct (P1 _ (P2 Hh eq_refl)) as [L _]. lia.
  - intros Hw Hh. destruct (parse_well_shaped s Hw) as (r & Ep & Hl & Ha & _).
    rewrite Ep. unfold hex_DecodeString.
    destruct (hex_decode_pairs _ r (le_n _)) as (_ & _ & P3).
    apply P3. rewrite Ha. exact Hh.
  - intros b. split.
    + apply parseUUID_map_Ok; [exact upcase_dash | exact upcase_hex | reflexivity].
    + apply parseUUID_map_Ok; [exact downcase_dash | exact downcase_hex | reflexivity].
Qed.

(* ------------------------------------------------------------------ *)
(** * The rest of the package: New, ToString, Value, Scan and the JSON methods *)

Lemma go_copy_zeros8 (node : list Z) :
  go_copy (repeat 0 8) node = firstn 8 (node ++ repeat 0 8).
Proof.
  do 8 (destruct node as [|? node]; [reflexivity|]). destruct node; reflexivity.
Qed.

Lemma ToString_buffer (u : UUIDv8) :
  ToString u = formatUUID (ts_bytes TimestampBits48 (Timestamp u)
                 ++ [ver_byte (ClockSeq u); var_byte (ClockSeq u)]
                 ++ firstn 8 (Node u ++ repeat 0 8)).
Proof.
  destruct u as [t c n]. cbn [Node Timestamp ClockSeq].
  rewrite <- go_copy_zeros8. reflexivity.
Qed.

Lemma testbit_high_const (c k n : Z) : 0 <= c < 2 ^ k -> 0 <= k <= n -> Z.testbit c n = false.
Proof.
  intros Hc Hk. rewrite <- (Z.mod_small c (2 ^ k)) by exact Hc.
  apply Z.mod_pow2_bits_high. lia.
Qed.

Lemma clockSeq_read_back_any (clockSeq : Z) : 0 <= clockSeq ->
  Z.lor (Z.shiftl (Z.land (ver_byte clockSeq) 15) 8) (var_byte clockSeq)
  = Z.lor (Z.land clockSeq 3903) 128.
Proof.
  intros H. unfold ver_byte, var_byte, byte_of. apply Z.bits_inj'. intros n Hn.
  rewrite !Z.lor_spec, !Z.land_spec.
  destruct (Z.lt_ge_cases n 8) as [H8|H8].
  - rewrite Z.shiftl_spec_low by lia.
    assert (n = 0 \/ n = 1 \/ n = 2 \/ n = 3 \/ n = 4 \/ n = 5 \/ n = 6 \/ n = 7) as Hc by lia.
    generalize (Z.testbit clockSeq) as tb; intros tb;
      repeat destruct Hc as [-> | Hc]; try (subst n); simpl; btauto.
  - rewrite Z.shiftl_spec_high by lia.
    rewrite ?Z.land_spec, ?Z.lor_spec, ?Z.land_spec, Z.shiftr_spec by lia.
    destruct (Z.lt_ge_cases n 16) as [H16|H16].
    + assert (n = 8 \/ n = 9 \/ n = 10 \/ n = 11 \/ n = 12 \/ n = 13 \/ n = 14 \/ n = 15) as Hc by lia.
      generalize (Z.testbit clockSeq) as tb; intros tb;
      repeat destruct Hc as [-> | Hc]; try (subst n); simpl; btauto.
    + rewrite (testbit_high_const 15 4), (testbit_high_const 255 8 n), (testbit_high_const 63 8 n),
        (testbit_high_const 128 8 n), (testbit_high_const 3903 12 n) by lia.
      btauto.
Qed.

Lemma buffer_fields (p t : list Z) (v w : Z) :
  List.length p = 6%nat -> List.length t = 8%nat ->
  List.length (p ++ [v; w] ++ t) = 16%nat /\
  slice (p ++ [v; w] ++ t) 0 6 = p /\ nth 6 (p ++ [v; w] ++ t) 0 = v /\
  nth 7 (p ++ [v; w] ++ t) 0 = w /\ slice (p ++ [v; w] ++ t) 8 14 = firstn 6 t.
Proof.
  intros Hp Ht.
  do 6 (destruct p as [|? p]; [discriminate|]). destruct p; [|discriminate].
  do 8 (destruct t as [|? t]; [discriminate|]). destruct t; [|discriminate].
  repeat split; reflexivity.
Qed.

Lemma firstn_pad_length (l : list Z) (n : nat) : List.length (firstn n (l ++ repeat 0 n)) = n.
Proof. rewrite length_firstn, length_app, repeat_length. lia. Qed.

Lemma firstn_pad_6_8 (l : list Z) :
  firstn 6 (firstn 8 (l ++ repeat 0 8)) = firstn 6 (l ++ repeat 0 6).
Proof.
  rewrite firstn_firstn. cbn [Nat.min].
  do 6 (destruct l as [|? l]; [reflexivity|]). reflexivity.
Qed.

Lemma Forall_firstn_any (P : Z -> Prop) (n : nat) (l : list Z) :
  Forall P l -> Forall P (firstn n l).
Proof.
  intros H. revert n. induction H as [|x l Hx Hl IH]; intros [|n]; cbn; auto.
Qed.

Lemma Forall_pad (l : list Z) (n m : nat) :
  Forall is_byte l -> Forall is_byte (firstn n (l ++ repeat 0 m)).
Proof.
  intros H. apply Forall_firstn_any, Forall_app. split; [exact H|].
  apply Forall_forall. intros x Hx. apply repeat_spec in Hx. subst. unfold is_byte; lia.
Qed.

(** [FromString] of [ToString u]. *)
Lemma FromString_ToString_fields (u : UUIDv8) :
  0 <= Timestamp u -> 0 <= ClockSeq u -> Forall is_byte (Node u) ->
  FromString (ToString u)
  = Ok (mkUUIDv8 (Timestamp u mod 2 ^ 48) (Z.lor (Z.land (ClockSeq u) 3903) 128)
                 (firstn 6 (Node u ++ repeat 0 6))).
Proof.
  intros Ht Hc Hn. rewrite ToString_buffer.
  destruct (ts_bytes_bytes TimestampBits48 (Timestamp u)) as [Htb Htl].
  destruct (ver_var_bytes (ClockSeq u)) as [Hv Hw].
  destruct (buffer_fields (ts_bytes TimestampBits48 (Timestamp u)) (firstn 8 (Node u ++ repeat 0 8))
              (ver_byte (ClockSeq u)) (var_byte (ClockSeq u)) Htl (firstn_pad_length _ _))
    as (Hl & H0 & H6 & H7 & H8).
  assert (Hb : Forall is_byte (ts_bytes TimestampBits48 (Timestamp u)
                 ++ [ver_byte (ClockSeq u); var_byte (ClockSeq u)]
                 ++ firstn 8 (Node u ++ repeat 0 8))).
  { apply Forall_app; split; [exact Htb|].
    apply Forall_cons; [exact Hv|]. apply Forall_cons; [exact Hw|]. apply Forall_pad, Hn. }
  rewrite (FromString_parsed _ _ (parseUUID_formatUUID _ Hl Hb) Hl).
  rewrite H0, H6, H7, H8, decode_ts48, clockSeq_read_back_any, firstn_pad_6_8 by lia.
  reflexivity.
Qed.

Lemma allzero16 (b : list Z) : List.length b = 16%nat ->
  isAllZeroUUID b = true <-> b = repeat 0 16.
Proof.
  intros Hl. unfold isAllZeroUUID. rewrite forallb_forall. split.
  - intros H. destruct16 b. cbn [repeat].
    repeat match goal with
    | |- ?x :: _ = 0 :: _ =>
        let E := fresh in
        assert (E : (x =? 0) = true) by (apply H; cbn; tauto);
        apply Z.eqb_eq in E; rewrite E; f_equal
    end; reflexivity.
  - intros -> x Hx. apply repeat_spec in Hx. subst. reflexivity.
Qed.

Lemma FromString_ok_bounds (s : string) (u : UUIDv8) :
  FromString s = Ok u -> 0 <= ClockSeq u <= 4095 /\ List.length (Node u) = 6%nat.
Proof.
  intros E. unfold FromString in E.
  destruct (parseUUID s) as [b|e] eqn:Hp; [|discriminate E].
  injection E as <-. cbn [ClockSeq Node].
  destruct (parseUUID_shape s b Hp) as [Hl Hb].
  split; [|apply length_slice; lia].
  rewrite Forall_forall in Hb. apply clockSeq_decoded_bound; apply Hb, nth_In; lia.
Qed.

Lemma IsValid_parse (s : string) :
  IsValidUUIDv8 s = true <->
  exists b, parseUUID s = Ok b /\ Z.shiftr (nth 6 b 0) 4 = versionV8 /\
            Z.land (Z.shiftr (nth 7 b 0) 6) 3 = variantRFC4122.
Proof.
  unfold IsValidUUIDv8. split.
  - destruct (parseUUID s) as [b|e]; [|discriminate].
    destruct (isAllZeroUUID b); [discriminate|].
    intros H. apply andb_prop in H as [H1 H2]. apply Z.eqb_eq in H1, H2. eauto.
  - intros (b & Hp & H6 & H7). rewrite Hp.
    destruct (parseUUID_shape s b Hp) as [Hl _].
    destruct (isAllZeroUUID b) eqn:Hz.
    + apply (allzero16 b Hl) in Hz. subst b. discriminate H6.
    + rewrite H6, H7. reflexivity.
Qed.

Lemma IsValid_FromString (s : string) :
  IsValidUUIDv8 s = true -> exists u, FromString s = Ok u.
Proof.
  intros H. apply IsValid_parse in H as (b & Hp & _).
  unfold FromString. rewrite Hp. eauto.
Qed.

Lemma variant_of_decoded_clockSeq (b6 b7 : Z) : is_byte b6 -> is_byte b7 ->
  Z.land (Z.shiftr (Z.lor (Z.shiftl (Z.land b6 15) 8) b7) 6) 3 = Z.land (Z.shiftr b7 6) 3.
Proof.
  intros H6 H7. apply Z.eqb_eq.
  apply (byte_pair_check (fun a c =>
     Z.land (Z.shiftr (Z.lor (Z.shiftl (Z.land a 15) 8) c) 6) 3 =? Z.land (Z.shiftr c 6) 3));
    [vm_compute; reflexivity | exact H6 | exact H7].
Qed.

Lemma firstn_pad_exact (l : list Z) (n : nat) : List.length l = n -> firstn n (l ++ repeat 0 n) = l.
Proof.
  intros <-. rewrite firstn_app, firstn_all, Nat.sub_diag. cbn. apply app_nil_r.
Qed.

Lemma MarshalJSON_Ok_inv (u : UUIDv8) (out : string) :
  MarshalJSON (Some u) = Ok out ->
  out = json_Marshal_string (ToString u) /\ IsValidUUIDv8 (ToString u) = true /\
  List.length (Node u) = 6%nat /\ Timestamp u <> 0 /\ ClockSeq u <= 4095.
Proof.
  unfold MarshalJSON. intros E.
  destruct (negb (Nat.eqb (List.length (Node u)) 6) || (Timestamp u =? 0) || (ClockSeq u >? 4095)) eqn:G;
    [discriminate E|].
  destruct (IsValidUUIDv8 (ToString u)) eqn:V; [|discriminate E].
  injection E as <-.
  apply orb_false_iff in G as [G G3]. apply orb_false_iff in G as [G1 G2].
  apply negb_false_iff, Nat.eqb_eq in G1. apply Z.eqb_neq in G2.
  apply Z.gtb_lt in G3 || (rewrite Z.gtb_ltb in G3; apply Z.ltb_ge in G3).
  repeat split; auto.
Qed.

Lemma testbit_byte_shift (x k m n : Z) : 0 <= k -> 0 <= m -> 0 <= n ->
  Z.testbit (Z.shiftl (byte_of (Z.shiftr x k)) m) n
  = (m <=? n) && (n <? m + 8) && Z.testbit x (n - m + k).
Proof.
  intros Hk Hm Hn. unfold byte_of.
  destruct (Z.leb_spec m n) as [Hmn|Hmn].
  - rewrite Z.shiftl_spec by exact Hn.
    rewrite Z.land_spec, Z.shiftr_spec by lia.
    change 255 with (Z.ones 8). rewrite Z.testbit_ones_nonneg by lia.
    destruct (Z.ltb_spec (n - m) 8), (Z.ltb_spec n (m + 8)); try lia; cbn; btauto.
  - rewrite Z.shiftl_spec_low by lia. reflexivity.
Qed.

(** The fixed 48-bit decoder on the bytes of a 32-bit timestamp. *)
Lemma decode_ts32 (timestamp : Z) : 0 <= timestamp ->
  decodeTimestamp (ts_bytes TimestampBits32 timestamp) = (timestamp mod 2 ^ 32) * 2 ^ 16.
Proof.
  intros Ht. unfold decodeTimestamp.
  cbv [ts_bytes TimestampBits32 Z.eqb Pos.eqb nth].
  rewrite <- Z.shiftl_mul_pow2 by lia.
  apply Z.bits_inj'. intros n Hn.
  rewrite !Z.lor_spec, Z.shiftl_0_l, Z.testbit_0_l.
  rewrite (Z.shiftl_spec (timestamp mod 2 ^ 32)) by lia.
  replace (byte_of timestamp) with (byte_of (Z.shiftr timestamp 0))
    by (rewrite Z.shiftr_0_r; reflexivity).
  rewrite !testbit_byte_shift by lia.
  replace (n - 40 + 24) with (n - 16) by lia. replace (n - 32 + 16) with (n - 16) by lia.
  replace (n - 24 + 8) with (n - 16) by lia. replace (n - 16 + 0) with (n - 16) by lia.
  destruct (Z.ltb_spec n 16).
  - rewrite (Z.testbit_neg_r (timestamp mod 2 ^ 32)) by lia. split_bounds; cbn; btauto.
  - destruct (Z.ltb_spec (n - 16) 32).
    + rewrite Z.mod_pow2_bits_low by lia. split_bounds; cbn; btauto.
    + rewrite Z.mod_pow2_bits_high by lia. split_bounds; cbn; btauto.
Qed.

(** The fixed 48-bit decoder on the bytes of a 60-bit timestamp. *)
Lemma decode_ts60 (timestamp : Z) : 0 <= timestamp ->
  decodeTimestamp (ts_bytes TimestampBits60 timestamp) = (timestamp / 2 ^ 12) mod 2 ^ 48.
Proof.
  intros Ht. unfold decodeTimestamp.
  cbv [ts_bytes TimestampBits32 TimestampBits48 TimestampBits60 Z.eqb Pos.eqb nth].
  rewrite <- Z.shiftr_div_pow2 by lia.
  apply Z.bits_inj'. intros n Hn.
  rewrite <- (Z.shiftl_0_r (byte_of (Z.shiftr timestamp 12))).
  rewrite !Z.lor_spec, !testbit_byte_shift by lia.
  replace (n - 40 + 52) with (n + 12) by lia. replace (n - 32 + 44) with (n + 12) by lia.
  replace (n - 24 + 36) with (n + 12) by lia. replace (n - 16 + 28) with (n + 12) by lia.
  replace (n - 8 + 20) with (n + 12) by lia. replace (n - 0 + 12) with (n + 12) by lia.
  destruct (Z.ltb_spec n 48).
  - rewrite Z.mod_pow2_bits_low, Z.shiftr_spec by lia. split_bounds; cbn; btauto.
  - rewrite Z.mod_pow2_bits_high by lia. split_bounds; cbn; btauto.
Qed.

(** [FromString] of the string [NewWithParams] returns, for any supported width. *)
Lemma FromString_NewWithParams (timestamp clockSeq : Z) (node : list Z) (timestampBits : Z) :
  0 <= clockSeq -> List.length node = 6%nat -> Forall is_byte node ->
  supported_width timestampBits = true ->
  exists s, NewWithParams timestamp clockSeq node timestampBits = Ok s /\
    s = formatUUID (ts_bytes timestampBits timestamp
                     ++ [ver_byte clockSeq; var_byte clockSeq] ++ node ++ [0; 0]) /\
    FromString s = Ok (mkUUIDv8 (decodeTimestamp (ts_bytes timestampBits timestamp))
                                (Z.lor (Z.land clockSeq 3903) 128) node).
Proof.
  intros Hc Hn Hb Hw.
  pose proof (encodeUUID_layout timestamp clockSeq node timestampBits Hn Hw) as E.
  destruct (encoded_buffer_bytes _ _ _ _ _ Hb E) as [Hl Hbytes].
  destruct (encoded_fields timestamp clockSeq node timestampBits Hn) as (H0 & H6 & H7 & H8).
  unfold NewWithParams. rewrite E. eexists. split; [reflexivity|]. split; [reflexivity|].
  rewrite (FromString_parsed _ _ (parseUUID_formatUUID _ Hl Hbytes) Hl).
  rewrite H0, H6, H7, H8, clockSeq_read_back_any by exact Hc.
  reflexivity.
Qed.

(** [New]: once both random reads succeed with a 6-byte node, [New] returns
    a string that [IsValidUUIDv8] accepts, and [FromString] reads back the
    clock's nanoseconds modulo [2^48], the random 16-bit clock sequence
    reduced to [(r & 0xF3F) | 0x80], and the node. *)
Theorem New_valid_round_trip (now : Z) (clockSeq node : list Z) :
  List.length node = 6%nat -> Forall is_byte node ->
  exists s, New now (Some clockSeq) (Some node) = XOk s /\ IsValidUUIDv8 s = true /\
    FromString s = Ok (mkUUIDv8 (now mod 2 ^ 48)
                                (Z.lor (Z.land (BigEndian_Uint16 clockSeq) 3903) 128) node).
Proof.
  intros Hn Hb.
  set (cs := Z.land (BigEndian_Uint16 clockSeq) 4095).
  assert (Hcs : 0 <= cs < 4096).
  { subst cs. change 4095 with (Z.ones 12). rewrite Z.land_ones by lia.
    apply Z.mod_pos_bound. reflexivity. }
  assert (Hw : supported_width TimestampBits48 = true) by reflexivity.
  destruct (FromString_NewWithParams (now mod 2 ^ 64) cs node TimestampBits48 ltac:(lia) Hn Hb Hw)
    as (s & Es & Hs & Hf).
  exists s. unfold New. fold cs. rewrite Es. split; [reflexivity|]. split.
  - rewrite Hs. apply IsValid_encoded; assumption.
  - rewrite Hf, decode_ts48 by (apply Z.mod_pos_bound; lia).
    rewrite Z.mod_mod_divide by (exists (2 ^ 16); reflexivity).
    subst cs. rewrite <- Z.land_assoc. reflexivity.
Qed.

Lemma New_valid_round_trip_witness :
  (List.length [1; 2; 3; 4; 5; 6] = 6%nat /\ Forall is_byte [1; 2; 3; 4; 5; 6]) /\
  exists s, New 1633024800000000000 (Some [171; 205]) (Some [1; 2; 3; 4; 5; 6]) = XOk s /\
    IsValidUUIDv8 s = true /\
    FromString s = Ok (mkUUIDv8 (1633024800000000000 mod 2 ^ 48)
                         (Z.lor (Z.land (BigEndian_Uint16 [171; 205]) 3903) 128) [1; 2; 3; 4; 5; 6]).
Proof.
  assert (Hb : Forall is_byte [1; 2; 3; 4; 5; 6])
    by (repeat apply Forall_cons; try apply Forall_nil; unfold is_byte; lia).
  split; [split; [reflexivity | exact Hb]|].
  apply (New_valid_round_trip 1633024800000000000 [171; 205] [1; 2; 3; 4; 5; 6]);
    [reflexivity | exact Hb].
Defined.

(** [IsValidUUIDv8] accepts a string exactly when it parses and byte 6 has
    version nibble 8 and byte 7 variant bits [10]; the all-zero check never
    decides anything on its own, since such a byte 6 is nonzero. *)
Theorem IsValidUUIDv8_iff (s : string) :
  IsValidUUIDv8 s = true <->
  exists b, parseUUID s = Ok b /\ Z.shiftr (nth 6 b 0) 4 = versionV8 /\
            Z.land (Z.shiftr (nth 7 b 0) 6) 3 = variantRFC4122.
Proof. apply IsValid_parse. Qed.

(** [FromStringOrNil] returns the same struct as [FromString] when it
    returns one, and returns nil exactly when [FromString] fails or the
    parsed 16 bytes are all zero. *)
Theorem FromStringOrNil_FromString (s : string) (u : UUIDv8) :
  FromStringOrNil s = Some u <-> FromString s = Ok u /\ parseUUID s <> Ok (repeat 0 16).
Proof.
  unfold FromStringOrNil.
  destruct (parseUUID s) as [b|e] eqn:Hp.
  - destruct (parseUUID_shape s b Hp) as [Hl _].
    rewrite (FromString_parsed s b Hp Hl).
    destruct (isAllZeroUUID b) eqn:Hz.
    + apply (allzero16 b Hl) in Hz. subst b.
      split; [discriminate | intros [_ H]; contradiction H; reflexivity].
    + split.
      * intros E. injection E as <-. split; [reflexivity|].
        intros E. injection E as ->. discriminate Hz.
      * intros [E _]. injection E as <-. reflexivity.
  - unfold FromString. rewrite Hp. split; [discriminate | intros [E _]; discriminate E].
Qed.

(** For a 6-byte node, [ToString u] is the string [NewWithParams] returns at
    width 48 for the fields of [u]. *)
Theorem ToString_NewWithParams (u : UUIDv8) :
  List.length (Node u) = 6%nat ->
  NewWithParams (Timestamp u) (ClockSeq u) (Node u) TimestampBits48 = Ok (ToString u).
Proof.
  intros Hn. unfold NewWithParams.
  rewrite encodeUUID_layout by (assumption || reflexivity).
  rewrite ToString_layout by exact Hn. reflexivity.
Qed.

Lemma ToString_NewWithParams_witness :
  List.length (Node (mkUUIDv8 123456789 2048 [1; 2; 3; 4; 5; 6])) = 6%nat /\
  NewWithParams 123456789 2048 [1; 2; 3; 4; 5; 6] TimestampBits48
    = Ok (ToString (mkUUIDv8 123456789 2048 [1; 2; 3; 4; 5; 6])).
Proof.
  split; [reflexivity|].
  exact (ToString_NewWithParams (mkUUIDv8 123456789 2048 [1; 2; 3; 4; 5; 6]) eq_refl).
Defined.

(** [ToString] never fails: it writes the 48-bit timestamp bytes, the
    version and variant bytes, and then the first 8 bytes of the node,
    padded with zero bytes, into bytes 8-15 ([copy] fills the 8 remaining
    bytes, so node bytes 6 and 7 of a longer node end up in bytes 14-15). *)
Theorem ToString_node_bytes (u : UUIDv8) :
  ToString u = formatUUID (ts_bytes TimestampBits48 (Timestamp u)
                 ++ [ver_byte (ClockSeq u); var_byte (ClockSeq u)]
                 ++ firstn 8 (Node u ++ repeat 0 8)).
Proof. apply ToString_buffer. Qed.

(** [FromString] of [ToString u] gives back the timestamp modulo [2^48], the
    clock sequence as [(clockSeq & 0xF3F) | 0x80] for every uint16 value,
    and the first 6 bytes of the node padded with zero bytes. *)
Theorem FromString_ToString (u : UUIDv8) :
  0 <= Timestamp u -> 0 <= ClockSeq u -> Forall is_byte (Node u) ->
  FromString (ToString u)
  = Ok (mkUUIDv8 (Timestamp u mod 2 ^ 48) (Z.lor (Z.land (ClockSeq u) 3903) 128)
                 (firstn 6 (Node u ++ repeat 0 6))).
Proof. apply FromString_ToString_fields. Qed.

Lemma FromString_ToString_witness :
  (0 <= 5 /\ 0 <= 65535 /\ Forall is_byte [1; 2; 3]) /\
  FromString (ToString (mkUUIDv8 5 65535 [1; 2; 3]))
  = Ok (mkUUIDv8 (5 mod 2 ^ 48) (Z.lor (Z.land 65535 3903) 128) (firstn 6 ([1; 2; 3] ++ repeat 0 6))).
Proof.
  assert (Hb : Forall is_byte [1; 2; 3])
    by (repeat apply Forall_cons; try apply Forall_nil; unfold is_byte; lia).
  split; [split; [lia | split; [lia | exact Hb]]|].
  apply (FromString_ToString (mkUUIDv8 5 65535 [1; 2; 3])); cbn [Timestamp ClockSeq Node];
    (lia || exact Hb).
Defined.

(** [Value] of a struct with a 6-byte node is [ToString u], and [Scan] of
    that string stores the struct with the timestamp modulo [2^48], the
    clock sequence [(clockSeq & 0xF3F) | 0x80] and the same node. *)
Theorem Value_Scan_round_trip (u v : UUIDv8) :
  List.length (Node u) = 6%nat -> 0 <= Timestamp u -> 0 <= ClockSeq u -> Forall is_byte (Node u) ->
  Value (Some u) = Some (ToString u) /\
  Scan v (ScanString (ToString u))
  = (mkUUIDv8 (Timestamp u mod 2 ^ 48) (Z.lor (Z.land (ClockSeq u) 3903) 128) (Node u), None).
Proof.
  intros Hn Ht Hc Hb. split.
  - unfold Value. rewrite Hn. reflexivity.
  - unfold Scan. rewrite FromString_ToString_fields by assumption.
    rewrite firstn_pad_exact by exact Hn. reflexivity.
Qed.

Lemma Value_Scan_round_trip_witness :
  (List.length [1; 2; 3; 4; 5; 6] = 6%nat /\ 0 <= 123456789 /\ 0 <= 2048 /\
   Forall is_byte [1; 2; 3; 4; 5; 6]) /\
  Value (Some (mkUUIDv8 123456789 2048 [1; 2; 3; 4; 5; 6]))
    = Some (ToString (mkUUIDv8 123456789 2048 [1; 2; 3; 4; 5; 6])) /\
  Scan (mkUUIDv8 0 0 []) (ScanString (ToString (mkUUIDv8 123456789 2048 [1; 2; 3; 4; 5; 6])))
  = (mkUUIDv8 (123456789 mod 2 ^ 48) (Z.lor (Z.land 2048 3903) 128) [1; 2; 3; 4; 5; 6], None).
Proof.
  assert (Hb : Forall is_byte [1; 2; 3; 4; 5; 6])
    by (repeat apply Forall_cons; try apply Forall_nil; unfold is_byte; lia).
  split; [repeat split; (reflexivity || lia || exact Hb)|].
  apply (Value_Scan_round_trip (mkUUIDv8 123456789 2048 [1; 2; 3; 4; 5; 6]) (mkUUIDv8 0 0 []));
    cbn [Timestamp ClockSeq Node]; (reflexivity || lia || exact Hb).
Defined.


(** [UnmarshalJSON] succeeds only on a decoded string that
    [IsValidUUIDv8] accepts, storing [FromString]'s struct, whose clock
    sequence is at most 4095 with bits 7-6 equal to [10] and whose node has
    6 bytes; on an error it leaves the receiver unchanged, and its
    "failed to parse UUID string" error can never occur. *)
Theorem UnmarshalJSON_outcome (json_Unmarshal : string -> option string) (u : UUIDv8) (data : string) :
  match UnmarshalJSON json_Unmarshal u data with
  | (u', None) =>
      exists s, json_Unmarshal data = Some s /\ IsValidUUIDv8 s = true /\ FromString s = Ok u' /\
        0 <= ClockSeq u' <= 4095 /\ List.length (Node u') = 6%nat /\
        Z.land (Z.shiftr (ClockSeq u') 6) 3 = variantRFC4122
  | (u', Some e) => u' = u /\ (forall e', e <> ErrParseUUIDString e')
  end.
Proof.
  unfold UnmarshalJSON.
  destruct (json_Unmarshal data) as [s|]; [|split; [reflexivity | discriminate]].
  destruct (IsValidUUIDv8 s) eqn:V; cbn [negb]; [|split; [reflexivity | discriminate]].
  destruct (IsValid_FromString s V) as [p Ep]. rewrite Ep.
  exists s. split; [reflexivity|]. split; [exact V|]. split; [exact Ep|].
  destruct (FromString_ok_bounds s p Ep) as [Hc Hn]. split; [exact Hc|]. split; [exact Hn|].
  apply IsValid_parse in V as (b & Hp & _ & H7).
  destruct (parseUUID_shape s b Hp) as [Hl Hb].
  rewrite Forall_forall in Hb.
  pose proof (variant_of_decoded_clockSeq (nth 6 b 0) (nth 7 b 0)
                ltac:(apply Hb, nth_In; lia) ltac:(apply Hb, nth_In; lia)) as Hv.
  rewrite (FromString_parsed s b Hp Hl) in Ep. apply Ok_inj in Ep. subst p.
  exact (eq_trans Hv H7).
Qed.

(** The JSON round trip: when [MarshalJSON] succeeds and encoding/json
    decodes the JSON string it wrote back to the same string,
    [UnmarshalJSON] stores the timestamp modulo [2^48], the clock sequence
    [(clockSeq & 0xF3F) | 0x80] and the node. *)
Theorem MarshalJSON_UnmarshalJSON (json_Unmarshal : string -> option string) (u v : UUIDv8)
  (out : string) :
  0 <= Timestamp u -> 0 <= ClockSeq u -> Forall is_byte (Node u) ->
  json_Unmarshal (json_Marshal_string (ToString u)) = Some (ToString u) ->
  MarshalJSON (Some u) = Ok out ->
  UnmarshalJSON json_Unmarshal v out
  = (mkUUIDv8 (Timestamp u mod 2 ^ 48) (Z.lor (Z.land (ClockSeq u) 3903) 128) (Node u), None).
Proof.
  intros Ht Hc Hb Hj Hm.
  destruct (MarshalJSON_Ok_inv u out Hm) as (-> & V & Hn & _ & _).
  unfold UnmarshalJSON. rewrite Hj, V. cbn [negb].
  rewrite FromString_ToString_fields by assumption.
  rewrite firstn_pad_exact by exact Hn. reflexivity.
Qed.

(** A decoder for JSON strings written without escapes: the text between
    the two double quotes.  It stands for encoding/json in the example below. *)
Definition json_unquote_plain (data : string) : option string :=
  match data with
  | String q rest =>
      if Ascii.eqb q dquote then
        match String.get (String.length rest - 1) rest with
        | Some q' => if Ascii.eqb q' dquote then Some (substring 0 (String.length rest - 1) rest)
                     else None
        | None => None
        end
      else None
  | EmptyString => None
  end.

Lemma MarshalJSON_UnmarshalJSON_witness :
  (0 <= 123456789 /\ 0 <= 2048 /\ Forall is_byte [1; 2; 3; 4; 5; 6] /\
   json_unquote_plain (json_Marshal_string (ToString (mkUUIDv8 123456789 2048 [1; 2; 3; 4; 5; 6])))
     = Some (ToString (mkUUIDv8 123456789 2048 [1; 2; 3; 4; 5; 6])) /\
   MarshalJSON (Some (mkUUIDv8 123456789 2048 [1; 2; 3; 4; 5; 6]))
     = Ok (json_Marshal_string "0000075b-cd15-8880-0102-030405060000")) /\
  UnmarshalJSON json_unquote_plain (mkUUIDv8 0 0 []) (json_Marshal_string "0000075b-cd15-8880-0102-030405060000")
  = (mkUUIDv8 (123456789 mod 2 ^ 48) (Z.lor (Z.land 2048 3903) 128) [1; 2; 3; 4; 5; 6], None).
Proof.
  assert (Hb : Forall is_byte [1; 2; 3; 4; 5; 6])
    by (repeat apply Forall_cons; try apply Forall_nil; unfold is_byte; lia).
  split; [repeat split; (reflexivity || lia || exact Hb)|].
  apply (MarshalJSON_UnmarshalJSON json_unquote_plain (mkUUIDv8 123456789 2048 [1; 2; 3; 4; 5; 6])
           (mkUUIDv8 0 0 [])); cbn [Timestamp ClockSeq Node]; (reflexivity || lia || exact Hb).
Defined.

(** The decoder always reads 48 bits: a width-32 timestamp comes back as
    [(timestamp mod 2^32) * 2^16], a width-60 one as
    [(timestamp / 2^12) mod 2^48]. *)
Theorem FromString_timestamp_widths (timestamp clockSeq : Z) (node : list Z) :
  0 <= timestamp -> 0 <= clockSeq -> List.length node = 6%nat -> Forall is_byte node ->
  (exists s, NewWithParams timestamp clockSeq node TimestampBits32 = Ok s /\
     FromString s = Ok (mkUUIDv8 ((timestamp mod 2 ^ 32) * 2 ^ 16)
                                 (Z.lor (Z.land clockSeq 3903) 128) node)) /\
  (exists s, NewWithParams timestamp clockSeq node TimestampBits60 = Ok s /\
     FromString s = Ok (mkUUIDv8 ((timestamp / 2 ^ 12) mod 2 ^ 48)
                                 (Z.lor (Z.land clockSeq 3903) 128) node)).
Proof.
  intros Ht Hc Hn Hb. split.
  - destruct (FromString_NewWithParams timestamp clockSeq node TimestampBits32 Hc Hn Hb eq_refl)
      as (s & E & _ & F).
    exists s. rewrite decode_ts32 in F by exact Ht. split; assumption.
  - destruct (FromString_NewWithParams timestamp clockSeq node TimestampBits60 Hc Hn Hb eq_refl)
      as (s & E & _ & F).
    exists s. rewrite decode_ts60 in F by exact Ht. split; assumption.
Qed.

Lemma FromString_timestamp_widths_witness :
  (0 <= 1633024800000000000 /\ 0 <= 1234 /\ List.length [1; 2; 3; 4; 5; 6] = 6%nat /\
   Forall is_byte [1; 2; 3; 4; 5; 6]) /\
  ((exists s, NewWithParams 1633024800000000000 1234 [1; 2; 3; 4; 5; 6] TimestampBits32 = Ok s /\
     FromString s = Ok (mkUUIDv8 ((1633024800000000000 mod 2 ^ 32) * 2 ^ 16)
                                 (Z.lor (Z.land 1234 3903) 128) [1; 2; 3; 4; 5; 6])) /\
   (exists s, NewWithParams 1633024800000000000 1234 [1; 2; 3; 4; 5; 6] TimestampBits60 = Ok s /\
     FromString s = Ok (mkUUIDv8 ((1633024800000000000 / 2 ^ 12) mod 2 ^ 48)
                                 (Z.lor (Z.land 1234 3903) 128) [1; 2; 3; 4; 5; 6]))).
Proof.
  assert (Hb : Forall is_byte [1; 2; 3; 4; 5; 6])
    by (repeat apply Forall_cons; try apply Forall_nil; unfold is_byte; lia).
  split; [repeat split; (reflexivity || lia || exact Hb)|].
  apply (FromString_timestamp_widths 1633024800000000000 1234 [1; 2; 3; 4; 5; 6]);
    (reflexivity || lia || exact Hb).
Defined.

(** A 36-character string with dashes at 8, 13, 18 and 23 and its 32
    characters without those dashes parse to the same bytes. *)
Theorem parseUUID_dashed_undashed (s : string) :
  String.length s = 36%nat -> dashes_at_separators s ->
  String.length (hex_payload s) = 32%nat /\
  (forall b, parseUUID (hex_payload s) = Ok b <-> parseUUID s = Ok b).
Proof.
  intros H36 Hd.
  assert (Hp : hex_payload s = drop_positions separator_positions 0 s)
    by (unfold hex_payload; rewrite H36; reflexivity).
  assert (Hl : String.length (hex_payload s) = 32%nat) by (rewrite Hp; apply hex_payload_length, H36).
  split; [exact Hl|]. intros b.
  destruct (parse_well_shaped s (or_intror (conj H36 Hd))) as (r & Er & Hr & Ha & Heq).
  rewrite Er.
  assert (Ep : parseUUID (hex_payload s) = hex_DecodeString (hex_payload s))
    by (unfold parseUUID; rewrite Hl; reflexivity).
  rewrite Ep.
  destruct (all_hex (hex_payload s)) eqn:Hh.
  - rewrite (Heq eq_refl). reflexivity.
  - unfold hex_DecodeString.
    destruct (proj2 (proj2 (hex_decode_pairs _ (hex_payload s) (le_n _))) Hh) as (c & E1 & _).
    destruct (proj2 (proj2 (hex_decode_pairs _ r (le_n _))) Ha) as (c' & E2 & _).
    rewrite E1, E2. split; discriminate.
Qed.

Lemma parseUUID_dashed_undashed_witness :
  (String.length "9a3d4049-0e2c-8080-0102-030405060000" = 36%nat /\
   dashes_at_separators "9a3d4049-0e2c-8080-0102-030405060000") /\
  hex_payload "9a3d4049-0e2c-8080-0102-030405060000" = "9a3d40490e2c80800102030405060000" /\
  String.length (hex_payload "9a3d4049-0e2c-8080-0102-030405060000") = 32%nat /\
  (forall b, parseUUID (hex_payload "9a3d4049-0e2c-8080-0102-030405060000") = Ok b <->
             parseUUID "9a3d4049-0e2c-8080-0102-030405060000" = Ok b).
Proof.
  assert (Hd : dashes_at_separators "9a3d4049-0e2c-8080-0102-030405060000")
    by (repeat split).
  split; [split; [reflexivity | exact Hd]|]. split; [reflexivity|].
  exact (parseUUID_dashed_undashed "9a3d4049-0e2c-8080-0102-030405060000" eq_refl Hd).
Defined.

(** [IsValidUUIDv8] gives the same answer on the upper-cased and on the
    lower-cased string. *)
Theorem IsValidUUIDv8_case_insensitive (s : string) :
  IsValidUUIDv8 (str_upcase s) = IsValidUUIDv8 s /\ IsValidUUIDv8 (str_downcase s) = IsValidUUIDv8 s.
Proof.
  unfold IsValidUUIDv8, str_upcase, str_downcase.
  rewrite (parseUUID_map ascii_upcase upcase_dash upcase_hex eq_refl),
          (parseUUID_map ascii_downcase downcase_dash downcase_hex eq_refl).
  destruct (parseUUID s) as [b|[]]; split; reflexivity.
Qed.
